(** * Query analysis of the time-series query engine (src/parser/query_api.go)

    A shallow embedding of the time-bound extractor [getTime] and of the
    column-reference resolver [GetReferencedColumns], with the properties
    of the specification stated and settled against them.

    Go values are embedded as follows.
    - [int64] is [Z] with the wrap-around written out ([int64]).
    - [string] is Rocq's [string] (a sequence of bytes, as in Go).
    - [*WhereCondition] is an address into an explicit heap, because
      [getTime] assigns to the fields of the node it was given.
    - [map[string][]string] is [gmap string (list string)]; the order in
      which Go's [range] visits a map is left open ([MapRange]).
    - a run-time panic (index out of range, nil dereference) is [Panic]. *)

From Stdlib Require Import ZArith String Ascii List Lia Bool.
From stdpp Require Import base list gmap strings sorting.

Set Warnings "-register-all".
Local Open Scope Z_scope.

(** ** Results of a Go call *)

(** A call either returns, panics, or (for the recursion over the heap,
    which is not structural) runs out of fuel. *)
Inductive exec (A : Type) : Type :=
| Done (a : A)
| Panic
| OutOfFuel.
Arguments Done {A} a.
Arguments Panic {A}.
Arguments OutOfFuel {A}.

Definition exec_bind {A B : Type} (m : exec A) (k : A -> exec B) : exec B :=
  match m with
  | Done a => k a
  | Panic => Panic
  | OutOfFuel => OutOfFuel
  end.

Notation "'do' x <- m ; k" := (exec_bind m (fun x => k))
  (at level 10, x pattern, m at level 100, k at level 200).

(** ** Expression values *)

Inductive ValueType : Type :=
| ValueRegex
| ValueInt
| ValueFloat
| ValueString
| ValueTableName
| ValueSimpleName
| ValueDuration
| ValueWildcard
| ValueFunctionCall
| ValueExpression.

Global Instance ValueType_eq_dec : EqDecision ValueType.
Proof. solve_decision. Defined.

(** Modelled from the spec: the declaration of [Value] is not part of the
    sources at hand.  [Name] is the textual payload, [Type_] the kind
    (Go's field [Type]), [Elems] the operands, and [compiledRegex] tells
    whether a compiled regular expression is attached to the value. *)
Inductive Value : Type :=
  mkValue { Name : string;
            Type_ : ValueType;
            Elems : list Value;
            compiledRegex : bool }.

Definition IsFunctionCall (v : Value) : bool :=
  bool_decide (Type_ v = ValueFunctionCall).

(** Modelled from the spec: [GetCompiledRegex] is not part of the sources
    at hand; its second result tells whether the value denotes a regex
    table, which the spec ties to the presence of the compiled regex. *)
Definition GetCompiledRegex (v : Value) : bool := compiledRegex v.

(** Shorthands for building values. *)
Definition SimpleName (s : string) : Value := mkValue s ValueSimpleName [] false.
Definition Wildcard : Value := mkValue "*" ValueWildcard [] false.
Definition Regex (s : string) : Value := mkValue s ValueRegex [] true.
Definition Literal (t : ValueType) (s : string) : Value := mkValue s t [] false.
Definition Expression (op : string) (l r : Value) : Value :=
  mkValue op ValueExpression [l; r] false.
Definition FunctionCall (f : string) (args : list Value) : Value :=
  mkValue f ValueFunctionCall args false.

(** ** Machine integers and time *)

Definition int64 (z : Z) : Z := (z + 2 ^ 63) mod 2 ^ 64 - 2 ^ 63.

Inductive Location : Type := Local | UTC.

Global Instance Location_eq_dec : EqDecision Location.
Proof. solve_decision. Defined.

(** Go's [time.Time], for the values this file builds: seconds and
    nanoseconds since the Unix epoch and the location pointer.  Go's [==]
    and [!=] on [time.Time] compare all three. *)
Record Time : Type := mkTime { sec : Z; nsec : Z; loc : Location }.

Global Instance Time_eq_dec : EqDecision Time.
Proof. solve_decision. Defined.

Definition time_Second : Z := 1000000000.

(** [time.Unix(sec, nsec)]: normalises [nsec] into [0, 1e9) and returns a
    time in the local location. *)
Definition time_Unix (s ns : Z) : Time :=
  if (ns <? 0) || (1000000000 <=? ns) then
    let n := Z.quot ns 1000000000 in
    let s := int64 (s + n) in
    let ns := ns - n * 1000000000 in
    if ns <? 0 then mkTime (int64 (s - 1)) (ns + 1000000000) Local
    else mkTime s ns Local
  else mkTime s ns Local.

(** [t.UTC()], [t.Unix()], [t.UnixNano()]. *)
Definition Time_UTC (t : Time) : Time := mkTime (sec t) (nsec t) UTC.
Definition Time_Unix (t : Time) : Z := sec t.
Definition Time_UnixNano (t : Time) : Z := int64 (sec t * 1000000000 + nsec t).

Definition ZERO_TIME : Time := time_Unix 0 0.

(** [time.Unix(n / int64(time.Second), n % int64(time.Second)).UTC()];
    Go's [/] and [%] truncate towards zero. *)
Definition time_of_nanoseconds (nanoseconds : Z) : Time :=
  Time_UTC (time_Unix (Z.quot nanoseconds time_Second)
                      (Z.rem nanoseconds time_Second)).

(** ** Where conditions on the heap *)

Abbreviation ptr := nat.

(** Modelled from the spec: the declaration of [WhereCondition] is not part
    of the sources at hand.  A node is a leaf holding a boolean expression
    ([GetBoolExpression] succeeds) or an interior node with an operation
    and two children ([GetLeftWhereCondition] succeeds); a child may be
    nil. *)
Inductive WhereCondition : Type :=
| BoolExpression (expr : Value)
| Combined (Operation : string) (Left Right : option ptr).

Abbreviation heap := (list WhereCondition).

(** ** Errors *)

Inductive error : Type :=
| InvalidWhereExpression (expr : Value)
    (* "Invalid where expression: %v" *)
| InvalidFunctionInTimeContext (name : string)
    (* "Invalid use of function %s" *)
| InvalidTimeString (t : string)
    (* "%s isn't a valid time string" *)
| InvalidTimeOperator (op : string)
    (* "Cannot use '%s' in a time expression", "Cannot use time with '%s'" *)
| ConflictingOrTimeBounds
    (* "Invalid where clause, time must appear twice to specify start and end time" *)
| InvalidTimeCondition (condition : ptr)
    (* "Invalid time condition %v" *)
| LibraryError (msg : string).
    (* an error of time.Parse or of common.ParseTimeDuration *)

(** ** Time expressions *)

Section TimeBound.

(** What the sources at hand use but do not define: the matcher of the
    compiled [time_regex], [time.Parse], [common.ParseTimeDuration] and
    the reading of the wall clock.  A Go error result is [Some _]. *)
Variable time_regex_FindStringSubmatch : string -> list string.
Variable time_Parse : string -> string -> Time * option error.
Variable ParseTimeDuration : string -> Z * option error.
Variable time_Now_UnixNano : Z.

Definition parseTimeString (t : string) : Time * option error :=
  let submatches := time_regex_FindStringSubmatch t in
  if bool_decide (length submatches = 0%nat) then
    (ZERO_TIME, Some (InvalidTimeString t))
  else if negb (String.eqb (nth 5 submatches "") "")
          || negb (String.eqb (nth 4 submatches "") "") then
    time_Parse "2006-01-02 15:04:05" t
  else if negb (String.eqb (nth 3 submatches "") "") then
    time_Parse "2006-01-02 15:04" t
  else if negb (String.eqb (nth 2 submatches "") "") then
    time_Parse "2006-01-02 15" t
  else time_Parse "2006-01-02" t.

(** [parseTime]: parse time expressions, e.g. [now() - 1d]. *)
Fixpoint parseTime (value : Value) : exec (Z * option error) :=
  match value with
  | mkValue name type elems _ =>
    if bool_decide (type <> ValueExpression) then
      if IsFunctionCall value && String.eqb name "now" then
        Done (time_Now_UnixNano, None)
      else if IsFunctionCall value then
        Done (0, Some (InvalidFunctionInTimeContext name))
      else if bool_decide (type = ValueString) then
        let '(t, err) := parseTimeString name in
        Done (Time_UnixNano t, err)
      else Done (ParseTimeDuration name)
    else
      match elems with
      | e0 :: elems' =>
        do r0 <- parseTime e0;
        let '(leftValue, err) := r0 in
        if err is Some _ then Done (0, err) else
        match elems' with
        | e1 :: _ =>
          do r1 <- parseTime e1;
          let '(rightValue, err) := r1 in
          if err is Some _ then Done (0, err) else
          if String.eqb name "+" then Done (int64 (leftValue + rightValue), None)
          else if String.eqb name "-" then Done (int64 (leftValue - rightValue), None)
          else Done (0, Some (InvalidTimeOperator name))
        | [] => Panic
        end
      | [] => Panic
      end
  end.

Definition isNumericValue (value : Value) : bool :=
  match Type_ value with
  | ValueDuration | ValueFloat | ValueInt | ValueString => true
  | _ => false
  end.

(** The result triple of [getTime]: condition, time, error. *)
Definition getTime_result : Type := option ptr * Time * option error.

(** [getTime], lines 363-436: the node [condition] holds the boolean
    expression [expr]. *)
Definition getTime_expression (condition : ptr) (expr : Value)
    (isParsingStartTime : bool) : exec getTime_result :=
  match Type_ expr with
  | ValueDuration | ValueFloat | ValueInt | ValueString | ValueWildcard =>
    Done (None, ZERO_TIME, Some (InvalidWhereExpression expr))
  | _ =>
    if bool_decide (Type_ expr = ValueFunctionCall) then
      Done (Some condition, ZERO_TIME, None)
    else
      match Elems expr with
      | leftValue :: rightValue :: _ =>
        let isTimeOnLeft :=
          bool_decide (Type_ leftValue <> ValueExpression)
          && bool_decide (Type_ leftValue <> ValueFunctionCall) in
        let isTimeOnRight :=
          bool_decide (Type_ rightValue <> ValueExpression)
          && bool_decide (Type_ rightValue <> ValueFunctionCall) in
        let '(isTimeOnLeft, isTimeOnRight) :=
          if isTimeOnLeft && isTimeOnRight then
            if isNumericValue rightValue then (isTimeOnLeft, false)
            else (false, isTimeOnRight)
          else (isTimeOnLeft, isTimeOnRight) in
        if negb isTimeOnLeft && negb isTimeOnRight then
          Done (Some condition, ZERO_TIME, None)
        else
          let timeExpression : Value + getTime_result :=
            if negb isTimeOnRight then
              if negb (String.eqb (Name leftValue) "time") then
                inr (Some condition, ZERO_TIME, None)
              else inl rightValue
            else if negb isTimeOnLeft then
              if negb (String.eqb (Name rightValue) "time") then
                inr (Some condition, ZERO_TIME, None)
              else inl leftValue
            else inr (None, ZERO_TIME, Some (InvalidTimeCondition condition)) in
          match timeExpression with
          | inr early => Done early
          | inl timeExpression =>
            let finish : exec getTime_result :=
              do r <- parseTime timeExpression;
              let '(nanoseconds, err) := r in
              if err is Some _ then Done (None, ZERO_TIME, err)
              else Done (None, time_of_nanoseconds nanoseconds, None) in
            if String.eqb (Name expr) ">" then
              if isParsingStartTime && negb isTimeOnLeft
                 || negb isParsingStartTime && negb isTimeOnRight
              then Done (Some condition, ZERO_TIME, None)
              else finish
            else if String.eqb (Name expr) "<" then
              if negb isParsingStartTime && negb isTimeOnLeft
                 || isParsingStartTime && negb isTimeOnRight
              then Done (Some condition, ZERO_TIME, None)
              else finish
            else if String.eqb (Name expr) "=" then
              do r <- parseTime timeExpression;
              let '(microseconds, err) := r in
              let nanoseconds := int64 (microseconds * 1000) in
              if err is Some _ then Done (None, ZERO_TIME, err)
              else Done (Some condition, time_of_nanoseconds nanoseconds, None)
            else Done (None, ZERO_TIME, Some (InvalidTimeOperator (Name expr)))
          end
      | _ => Panic
      end
  end.

(** Reading the fields of an interior node. *)
Definition load (h : heap) (c : ptr) : exec WhereCondition :=
  match h !! c with
  | Some node => Done node
  | None => Panic
  end.

(** [newCondition.Left = l; newCondition.Right = r] where [newCondition]
    is the pointer [c] itself: the node at [c] is overwritten. *)
Definition assign_children (h : heap) (c : ptr) (l r : option ptr) : heap :=
  match h !! c with
  | Some (Combined op _ _) => <[c := Combined op l r]> h
  | _ => h
  end.

(** [getTime]: parse the start time or end time from the where
    conditions and return the new condition. *)
Fixpoint getTime (fuel : nat) (h : heap) (condition : option ptr)
    (isParsingStartTime : bool) : exec (heap * getTime_result) :=
  match fuel with
  | O => OutOfFuel
  | S fuel =>
    match condition with
    | None => Done (h, (None, ZERO_TIME, None))
    | Some c =>
      do node <- load h c;
      match node with
      | BoolExpression expr =>
        do r <- getTime_expression c expr isParsingStartTime;
        Done (h, r)
      | Combined _ leftCondition _ =>
        do r1 <- getTime fuel h leftCondition isParsingStartTime;
        let '(h, (newLeftCondition, timeLeft, err)) := r1 in
        if err is Some _ then Done (h, (None, ZERO_TIME, err)) else
        do node <- load h c;
        match node with
        | BoolExpression _ => Panic
        | Combined _ _ rightCondition =>
          do r2 <- getTime fuel h rightCondition isParsingStartTime;
          let '(h, (newRightCondition, timeRight, err)) := r2 in
          if err is Some _ then Done (h, (None, ZERO_TIME, err)) else
          do node <- load h c;
          match node with
          | BoolExpression _ => Panic
          | Combined Operation _ _ =>
            if String.eqb Operation "OR"
               && (bool_decide (timeLeft <> ZERO_TIME)
                   || bool_decide (timeRight <> ZERO_TIME))
            then Done (h, (None, ZERO_TIME, Some ConflictingOrTimeBounds))
            else
              let '(h, newCondition) :=
                match newLeftCondition, newRightCondition with
                | None, _ => (h, newRightCondition)
                | Some _, None => (h, newLeftCondition)
                | Some _, Some _ =>
                  (assign_children h c newLeftCondition newRightCondition,
                   Some c)
                end in
              if bool_decide (timeLeft = ZERO_TIME) then
                Done (h, (newCondition, timeRight, None))
              else if bool_decide (timeRight = ZERO_TIME) then
                Done (h, (newCondition, timeLeft, None))
              else if isParsingStartTime
                      && (Time_Unix timeLeft <? Time_Unix timeRight) then
                Done (h, (newCondition, timeLeft, None))
              else if negb isParsingStartTime
                      && (Time_Unix timeLeft >? Time_Unix timeRight) then
                Done (h, (newCondition, timeLeft, None))
              else Done (h, (newCondition, timeRight, None))
          end
        end
      end
    end
  end.

End TimeBound.

(** ** Strings and slices *)

(** [strings.LastIndex(s, substr)]: the byte index of the last occurrence
    of [substr] in [s], or [-1]. *)
Fixpoint LastIndex_from (i : Z) (s substr : string) : Z :=
  match s with
  | EmptyString => if String.prefix substr "" then i else -1
  | String _ s' =>
    let j := LastIndex_from (i + 1) s' substr in
    if 0 <=? j then j
    else if String.prefix substr s then i else -1
  end.

Definition strings_LastIndex (s substr : string) : Z := LastIndex_from 0 s substr.

(** [s[:i]] and [s[i:]]. *)
Definition slice_to (s : string) (i : Z) : string :=
  String.substring 0 (Z.to_nat i) s.
Definition slice_from (s : string) (i : Z) : string :=
  String.substring (Z.to_nat i) (String.length s - Z.to_nat i) s.

(** ** Iterating over Go maps *)

(** Go's [range] over a map visits every entry once, in an order the
    language leaves open.  The order is a parameter of the resolver. *)
Class MapRange : Type := {
  range_of : forall {A : Type}, gmap string A -> list (string * A);
  range_of_perm : forall (A : Type) (m : gmap string A),
    range_of m ≡ₚ map_to_list m
}.

(** One admissible order: the one of [map_to_list]. *)
Definition MapRange_canonical : MapRange :=
  {| range_of := fun A (m : gmap string A) => map_to_list m;
     range_of_perm := fun A m => reflexivity (map_to_list m) |}.

(** ** From clauses and select queries *)

(** Modelled from the spec: the declarations of the from clause and of the
    select query are not part of the sources at hand. *)
Inductive FromClauseType : Type := FromClauseArray | FromClauseInnerJoin.

Global Instance FromClauseType_eq_dec : EqDecision FromClauseType.
Proof. solve_decision. Defined.

Record TableName : Type :=
  mkTableName { TableName_Name : Value; TableName_Alias : string }.

Record FromClause : Type :=
  mkFromClause { FromClause_Type : FromClauseType; Names : list TableName }.

Record SelectQuery : Type :=
  mkSelectQuery { ColumnNames : list Value;
                  GetFromClause : FromClause;
                  GetWhereCondition : option ptr;
                  groupByClause_Elems : list Value;
                  IsSinglePointQuery : bool }.

(** The state of the loop over the from-clause tables: the names already
    added, the returned mapping and the prefix mapping.  The returned
    mapping is keyed by [*Value]; every from-clause entry holds a Value
    node of its own, so the key is the position of the entry. *)
Abbreviation tables_state :=
  (gset string * gmap nat (list string) * gmap string (list string))%type.

(** ** The column-reference resolver *)

Section Resolver.

Context {order : MapRange}.

(** [uniq]: the distinct strings of [slice], sorted. *)
Definition uniq (slice : list string) : list string :=
  let uniqueMap : gmap string bool :=
    foldl (fun m name => <[name := true]> m) ∅ slice in
  let slice := (range_of uniqueMap).*1 in
  merge_sort String.le slice.

(** [mapping[k]] of a Go map of slices: the nil slice when [k] is absent. *)
Definition slice_at (mapping : gmap string (list string)) (k : string)
  : list string := default [] (mapping !! k).

(** [revertAlias], lines 79-98: the columns known under the alias of a
    table are collected, as a set, under its name, and the alias is
    deleted from [mapping]. *)
Definition gatherColumns (names : list TableName)
    (mapping : gmap string (list string))
  : gmap string (gmap string bool) * gmap string (list string) :=
  foldl (fun (st : gmap string (gmap string bool) * gmap string (list string)) table =>
           let '(columns, mapping) := st in
           let name := Name (TableName_Name table) in
           let alias :=
             if negb (String.eqb (TableName_Alias table) "")
             then TableName_Alias table else name in
           let columns :=
             foldl (fun (columns : gmap string (gmap string bool)) column =>
                      let tableColumns := default ∅ (columns !! name) in
                      <[name := <[column := true]> tableColumns]> columns)
                   columns (slice_at mapping alias) in
           (columns, delete alias mapping))
        (∅, mapping) names.

(** [revertAlias], lines 100-105: every collected set is stored in
    [mapping] as a slice, in the order of the iteration. *)
Definition storeColumns (columns : gmap string (gmap string bool))
    (mapping : gmap string (list string)) : gmap string (list string) :=
  foldl (fun (mapping : gmap string (list string)) entry =>
           let '(table, tableColumns) := entry in
           <[table := (range_of (tableColumns : gmap string bool)).*1]> mapping)
        mapping (range_of columns).

Definition revertAlias (q : SelectQuery)
    (mapping : gmap string (list string)) : gmap string (list string) :=
  let fromClause := GetFromClause q in
  if bool_decide (FromClause_Type fromClause <> FromClauseInnerJoin) then mapping
  else
    let '(columns, mapping) := gatherColumns (Names fromClause) mapping in
    storeColumns columns mapping.

(** [getReferencedColumnsFromValue], lines 278-285: the loop over the
    operands of an expression or function call; [collect] is the
    recursive call. *)
Definition collectElems
    (collect : Value -> gmap string (list string)
               -> list string * gmap string (list string))
  : list Value -> list string -> gmap string (list string)
    -> list string * gmap string (list string) :=
  fix loop (elems : list Value) (notAssigned : list string)
      (mapping : gmap string (list string)) :=
    match elems with
    | [] => (notAssigned, mapping)
    | value :: elems =>
      let '(newNotAssignedColumns, mapping) := collect value mapping in
      let newNotAssignedColumns :=
        match newNotAssignedColumns with
        | first :: rest =>
          if String.eqb first "*" then rest else newNotAssignedColumns
        | [] => newNotAssignedColumns
        end in
      loop elems (notAssigned ++ newNotAssignedColumns) mapping
    end.

(** [getReferencedColumnsFromValue]: the unprefixed columns of [v], and
    [mapping] extended with the prefixed ones. *)
Fixpoint getReferencedColumnsFromValue (v : Value)
    (mapping : gmap string (list string))
  : list string * gmap string (list string) :=
  match v with
  | mkValue name type elems _ =>
    match type with
    | ValueSimpleName | ValueTableName =>
      let idx := strings_LastIndex name "." in
      if bool_decide (idx <> -1) then
        let tableName := slice_to name idx in
        let columnName := slice_from name (idx + 1) in
        ([], <[tableName := slice_at mapping tableName ++ [columnName]]> mapping)
      else ([name], mapping)
    | ValueWildcard => (["*"%string], mapping)
    | ValueExpression | ValueFunctionCall =>
      collectElems getReferencedColumnsFromValue elems [] mapping
    | _ => ([], mapping)
    end
  end.

Fixpoint getReferencedColumnsFromCondition (fuel : nat) (h : heap)
    (condition : option ptr) (mapping : gmap string (list string))
  : exec (list string * gmap string (list string)) :=
  match fuel with
  | O => OutOfFuel
  | S fuel =>
    match condition with
    | None => Panic
    | Some c =>
      match h !! c with
      | None => Panic
      | Some (Combined _ leftCondition rightCondition) =>
        do r1 <- getReferencedColumnsFromCondition fuel h leftCondition mapping;
        let '(notPrefixed1, mapping) := r1 in
        do r2 <- getReferencedColumnsFromCondition fuel h rightCondition mapping;
        let '(notPrefixed2, mapping) := r2 in
        Done (notPrefixed1 ++ notPrefixed2, mapping)
      | Some (BoolExpression expr) =>
        Done (getReferencedColumnsFromValue expr mapping)
      end
    end
  end.

(** [GetReferencedColumns], lines 111-129: the unprefixed columns of the
    projection, of the condition and of the group-by list, and the
    prefix mapping. *)
Definition addValueColumns (st : list string * gmap string (list string))
    (value : Value) : list string * gmap string (list string) :=
  let '(notPrefixedColumns, mapping) := st in
  let '(columns, mapping) := getReferencedColumnsFromValue value mapping in
  (notPrefixedColumns ++ columns, mapping).

Definition collectColumns (fuel : nat) (h : heap) (q : SelectQuery)
  : exec (list string * gmap string (list string)) :=
  let st :=
    foldl (fun (st : list string * gmap string (list string)) value =>
             if String.eqb (Name value) "time"
                || String.eqb (Name value) "sequence_number"
             then st
             else addValueColumns st value)
          ([], ∅) (ColumnNames q) in
  if negb (IsSinglePointQuery q) then
    do st <-
      (match GetWhereCondition q with
       | Some condition =>
         do r <- getReferencedColumnsFromCondition fuel h (Some condition) st.2;
         Done (st.1 ++ r.1, r.2)
       | None => Done st
       end);
    Done (foldl addValueColumns st (groupByClause_Elems q))
  else Done st.

(** A list whose first element is ["*"] and that has further elements. *)
Definition starts_with_star (columns : list string) : bool :=
  (1 <? length columns)%nat
  && match columns with
     | first :: _ => String.eqb first "*"
     | [] => false
     end.

(** [GetReferencedColumns], lines 138-158: one iteration. *)
Definition attachTable (notPrefixedColumns : list string)
    (st : tables_state) (entry : nat * TableName) : tables_state :=
  let '(addedTables, returnedMapping, mapping) := st in
  let '(key, tableName) := entry in
  let value := TableName_Name tableName in
  if GetCompiledRegex value then
    (addedTables, <[key := notPrefixedColumns]> returnedMapping, mapping)
  else
    let name := Name value in
    if bool_decide (name ∈ addedTables) then st
    else
      let columns := uniq (slice_at mapping name ++ notPrefixedColumns) in
      let columns := if starts_with_star columns then take 1 columns else columns in
      ({[name]} ∪ addedTables, <[key := columns]> returnedMapping,
       delete name mapping).

Definition attachTables (notPrefixedColumns : list string)
    (names : list TableName) (mapping : gmap string (list string))
  : tables_state :=
  foldl (attachTable notPrefixedColumns) (∅, ∅, mapping)
        (zip (seq 0 (length names)) names).

(** [GetReferencedColumns], lines 166-176: a prefix that matched no
    table is put back in front of its columns. *)
Definition reattach (returnedMapping : gmap nat (list string))
    (prefix columnName : string) : gmap nat (list string) :=
  (fun columns : list string =>
     if starts_with_star columns then columns
     else columns ++ [prefix +:+ "." +:+ columnName]) <$> returnedMapping.

Definition reattachLeftovers (returnedMapping : gmap nat (list string))
    (mapping : gmap string (list string)) : gmap nat (list string) :=
  foldl (fun (returnedMapping : gmap nat (list string)) entry =>
           let '(prefix, columnNames) := entry in
           foldl (fun returnedMapping columnName =>
                    reattach returnedMapping prefix columnName)
                 returnedMapping (columnNames : list string))
        returnedMapping (range_of mapping).

(** [GetReferencedColumns]: a mapping from the time series names (or
    regex) to the column names that are referenced. *)
Definition GetReferencedColumns (fuel : nat) (h : heap) (q : SelectQuery)
  : exec (gmap nat (list string)) :=
  do st <- collectColumns fuel h q;
  let '(notPrefixedColumns, mapping) := st in
  let notPrefixedColumns := uniq notPrefixedColumns in
  let mapping := revertAlias q mapping in
  let '(_, returnedMapping, mapping) :=
    attachTables notPrefixedColumns (Names (GetFromClause q)) mapping in
  if bool_decide (size mapping = 0%nat) then Done returnedMapping
  else Done (reattachLeftovers returnedMapping mapping).

End Resolver.

(** ** Auxiliary notions for the statements *)

(** Whether a string contains a dot. *)
Fixpoint has_dot (s : string) : bool :=
  match s with
  | EmptyString => false
  | String c s' => Ascii.eqb c "." || has_dot s'
  end.

(** Columns none of which contains a dot. *)
Definition dot_free (columns : list string) : Prop :=
  forall column : string, column ∈ columns -> has_dot column = false.

(** What [getTime] never assigns: whether a node is a leaf, its boolean
    expression, and its operation. *)
Definition kind (node : WhereCondition) : Value + string :=
  match node with
  | BoolExpression expr => inl expr
  | Combined op _ _ => inr op
  end.

(** A comparison leaf [time OP t] with a literal right operand. *)
Definition time_comparison (op : string) (t : Value) : Value :=
  Expression op (SimpleName "time") t.

(** An illustrative environment for the parts the sources at hand do not
    define: no string is a date, and a few durations are known. *)
Module Sample.

Definition FindStringSubmatch (t : string) : list string := [].

Definition Parse (layout t : string) : Time * option error :=
  (ZERO_TIME, Some (LibraryError "parsing time")).

Definition durations (s : string) : Z * option error :=
  if String.eqb s "1s" then (1000000000, None)
  else if String.eqb s "5s" then (5000000000, None)
  else if String.eqb s "200000u" then (200000000, None)
  else if String.eqb s "500000u" then (500000000, None)
  else (0, Some (LibraryError s)).

Definition now : Z := 1257894000000000000.

Definition parseTime : Value -> exec (Z * option error) :=
  parseTime FindStringSubmatch Parse durations now.

Definition getTime : nat -> heap -> option ptr -> bool -> exec (heap * getTime_result) :=
  getTime FindStringSubmatch Parse durations now.

Definition duration (s : string) : Value := Literal ValueDuration s.

Definition leaf (op : string) (a : string) (b : Value) : WhereCondition :=
  BoolExpression (Expression op (SimpleName a) b).

(** [time = 1s] *)
Definition heap_time_eq : heap := [leaf "=" "time" (duration "1s")].

(** [time > 1s OR a = 'x'] *)
Definition heap_or : heap :=
  [Combined "OR" (Some 1%nat) (Some 2%nat);
   leaf ">" "time" (duration "1s");
   leaf "=" "a" (Literal ValueString "x")].

(** [time > 200000u AND time > 500000u] *)
Definition heap_and_start : heap :=
  [Combined "AND" (Some 1%nat) (Some 2%nat);
   leaf ">" "time" (duration "200000u");
   leaf ">" "time" (duration "500000u")].


(** [(time > 1s AND time < 5s) AND b = 'x'] *)
Definition heap_shared : heap :=
  [Combined "AND" (Some 1%nat) (Some 4%nat);
   Combined "AND" (Some 2%nat) (Some 3%nat);
   leaf ">" "time" (duration "1s");
   leaf "<" "time" (duration "5s");
   leaf "=" "b" (Literal ValueString "x")].

(** [SELECT value FROM a AS x INNER JOIN b AS y WHERE x.host = 'srv1'] *)
Definition heap_join : heap := [leaf "=" "x.host" (Literal ValueString "srv1")].
Definition query_join : SelectQuery :=
  mkSelectQuery [SimpleName "value"]
    (mkFromClause FromClauseInnerJoin
       [mkTableName (SimpleName "a") "x"; mkTableName (SimpleName "b") "y"])
    (Some 0%nat) [] false.

(** [SELECT * FROM /.*cpu.*/] *)
Definition query_regex : SelectQuery :=
  mkSelectQuery [Wildcard]
    (mkFromClause FromClauseArray [mkTableName (Regex ".*cpu.*") ""])
    None [] false.

(** [SELECT a.b FROM /.*cpu.*/] *)
Definition query_regex_dotted : SelectQuery :=
  mkSelectQuery [SimpleName "a.b"]
    (mkFromClause FromClauseArray [mkTableName (Regex ".*cpu.*") ""])
    None [] false.

(** [SELECT *, x, a.b FROM t] *)
Definition query_star_dotted : SelectQuery :=
  mkSelectQuery [Wildcard; SimpleName "x"; SimpleName "a.b"]
    (mkFromClause FromClauseArray [mkTableName (SimpleName "t") ""])
    None [] false.

End Sample.

(** ** Further functions of the query interface *)

(** [WillReturnSingleSeries]; indexing the empty list of names panics. *)
Definition WillReturnSingleSeries (q : SelectQuery) : exec bool :=
  let fromClause := GetFromClause q in
  if bool_decide (FromClause_Type fromClause <> FromClauseArray) then Done false
  else if (1 <? length (Names fromClause))%nat then Done false
  else
    match Names fromClause with
    | first :: _ =>
      if GetCompiledRegex (TableName_Name first) then Done false else Done true
    | [] => Panic
    end.

(** [GetTableAliases]: the names under which the table [name] is known
    in the query. *)
Definition GetTableAliases (q : SelectQuery) (name : string) : list string :=
  let names := Names (GetFromClause q) in
  if bool_decide (length names = 1%nat)
     && match names with
        | first :: _ => bool_decide (Type_ (TableName_Name first) = ValueRegex)
        | [] => false
        end
  then [name]
  else
    foldl (fun (aliases : list string) fromName =>
             if negb (String.eqb (Name (TableName_Name fromName)) name)
             then aliases
             else if String.eqb (TableName_Alias fromName) ""
             then aliases ++ [name]
             else aliases ++ [TableName_Alias fromName])
          [] names.

(** ** Notions for the further properties *)

(** The values [parseTime] can evaluate without indexing past the
    operands: every expression node it reaches has two of them. *)
Fixpoint has_operands (value : Value) : bool :=
  match value with
  | mkValue _ type elems _ =>
    if bool_decide (type <> ValueExpression) then true
    else
      match elems with
      | e0 :: e1 :: _ => has_operands e0 && has_operands e1
      | _ => false
      end
  end.

(** An operand that [getTime] takes for the time expression when the
    other operand is the name [time]: a literal, an expression or a
    function call. *)
Definition time_operand (t : Value) : bool :=
  isNumericValue t
  || bool_decide (Type_ t = ValueExpression)
  || bool_decide (Type_ t = ValueFunctionCall).

(** The shape of every result of [getTime] at a leaf [c]: the condition
    is nil or [c], an error comes with nil and [ZERO_TIME], and a time is
    [ZERO_TIME] or built by [time_of_nanoseconds]. *)
Definition leaf_result_shape (c : ptr) (r : getTime_result) : Prop :=
  (r.1.1 = None \/ r.1.1 = Some c)
  /\ (r.2 <> None -> r.1.1 = None /\ r.1.2 = ZERO_TIME)
  /\ (r.1.2 = ZERO_TIME \/ exists n : Z, r.1.2 = time_of_nanoseconds n).

(** The same for a result over the heap [h]: the condition is nil or an
    address of [h]. *)
Definition result_shape (h : heap) (r : getTime_result) : Prop :=
  (forall p : ptr, r.1.1 = Some p -> (p < length h)%nat)
  /\ (r.2 <> None -> r.1.1 = None /\ r.1.2 = ZERO_TIME)
  /\ (r.1.2 = ZERO_TIME \/ exists n : Z, r.1.2 = time_of_nanoseconds n).

(** What line 280 keeps of the columns of an operand: all but a leading
    wildcard. *)
Definition without_leading_star (columns : list string) : list string :=
  match columns with
  | first :: rest => if String.eqb first "*" then rest else columns
  | [] => columns
  end.

(** The name under which the columns of a from-clause entry are
    written: its alias, or its name when it has none (lines 82-86). *)
Definition table_alias (table : TableName) : string :=
  if negb (String.eqb (TableName_Alias table) "")
  then TableName_Alias table else Name (TableName_Name table).

(** Whether the entry at position [i] is the first entry of [names] that
    is no regex and bears the name of [table]. *)
Definition first_of_name (names : list TableName) (i : nat) (table : TableName)
  : Prop :=
  forall (j : nat) (other : TableName),
    (j < i)%nat -> names !! j = Some other ->
    GetCompiledRegex (TableName_Name other) = false ->
    Name (TableName_Name other) <> Name (TableName_Name table).

(** Further where conditions, over the environment of [Sample]. *)
Module Trees.

(** [now() - 1s] *)
Definition a_second_ago : Value :=
  Expression "-" (FunctionCall "now" []) (Sample.duration "1s").

(** [time < now() - 1s] *)
Definition heap_before : heap :=
  [BoolExpression (time_comparison "<" a_second_ago)].

(** [1s < time] *)
Definition heap_time_on_right : heap :=
  [BoolExpression (Expression "<" (Sample.duration "1s") (SimpleName "time"))].

(** [time <> 1s] *)
Definition heap_time_differs : heap :=
  [BoolExpression (time_comparison "<>" (Sample.duration "1s"))].

(** [time > 'garbage'] *)
Definition heap_time_garbage : heap :=
  [BoolExpression (time_comparison ">" (Literal ValueString "garbage"))].

(** [time > x] *)
Definition heap_time_column : heap :=
  [BoolExpression (time_comparison ">" (SimpleName "x"))].

(** [time > 1s AND b = 'x'] *)
Definition heap_clause : heap :=
  [Combined "AND" (Some 1%nat) (Some 2%nat);
   Sample.leaf ">" "time" (Sample.duration "1s");
   Sample.leaf "=" "b" (Literal ValueString "x")].

(** [time > 1s AND time < 5s] *)
Definition heap_range : heap :=
  [Combined "AND" (Some 1%nat) (Some 2%nat);
   Sample.leaf ">" "time" (Sample.duration "1s");
   Sample.leaf "<" "time" (Sample.duration "5s")].

(** [a = 'x' OR b = 'y'] *)
Definition heap_or_columns : heap :=
  [Combined "OR" (Some 1%nat) (Some 2%nat);
   Sample.leaf "=" "a" (Literal ValueString "x");
   Sample.leaf "=" "b" (Literal ValueString "y")].

End Trees.

(** Further queries. *)
Module Queries.

(** [SELECT value FROM a AS x INNER JOIN a AS y INNER JOIN b] *)
Definition joined : SelectQuery :=
  mkSelectQuery [SimpleName "value"]
    (mkFromClause FromClauseInnerJoin
       [mkTableName (SimpleName "a") "x"; mkTableName (SimpleName "a") "y";
        mkTableName (SimpleName "b") ""])
    None [] false.

(** [SELECT value FROM t] *)
Definition single : SelectQuery :=
  mkSelectQuery [SimpleName "value"]
    (mkFromClause FromClauseArray [mkTableName (SimpleName "t") ""])
    None [] false.

(** [SELECT *, value FROM t, /u.*/, t] *)
Definition merged : SelectQuery :=
  mkSelectQuery [Wildcard; SimpleName "value"]
    (mkFromClause FromClauseArray
       [mkTableName (SimpleName "t") ""; mkTableName (Regex "u.*") "";
        mkTableName (SimpleName "t") ""])
    None [] false.

End Queries.


(** * Properties of the time-bound extractor *)

(** One unfolding of the recursion of [getTime]. *)
Ltac getTime_step := cbn [getTime].
Ltac getTime_step_in H := cbn [getTime] in H.

Section TimeBoundFacts.

Variable time_regex_FindStringSubmatch : string -> list string.
Variable time_Parse : string -> string -> Time * option error.
Variable ParseTimeDuration : string -> Z * option error.
Variable time_Now_UnixNano : Z.

Abbreviation parseTime :=
  (parseTime time_regex_FindStringSubmatch time_Parse ParseTimeDuration
             time_Now_UnixNano).
Abbreviation getTime_expression :=
  (getTime_expression time_regex_FindStringSubmatch time_Parse
                      ParseTimeDuration time_Now_UnixNano).
Abbreviation getTime :=
  (getTime time_regex_FindStringSubmatch time_Parse ParseTimeDuration
           time_Now_UnixNano).

(** A time built by [time_of_nanoseconds] carries the UTC location and
    [ZERO_TIME] the local one: Go's [!=] tells them apart whatever the
    instant. *)
Lemma time_of_nanoseconds_not_ZERO_TIME (n : Z) :
  time_of_nanoseconds n <> ZERO_TIME.
Proof.
  intros H. apply (f_equal loc) in H. discriminate H.
Qed.

Lemma getTime_nil (fuel : nat) (h : heap) (b : bool) :
  getTime (S fuel) h None b = Done (h, (None, ZERO_TIME, None)).
Proof. reflexivity. Qed.

(** On a leaf the heap is left alone and the result is the one of
    [getTime_expression]. *)
Lemma getTime_leaf (fuel : nat) (h : heap) (c : ptr) (expr : Value) (b : bool) :
  h !! c = Some (BoolExpression expr) ->
  getTime (S fuel) h (Some c) b
  = exec_bind (getTime_expression c expr b) (fun r => Done (h, r)).
Proof.
  intros Hc. simpl. unfold load. rewrite Hc. reflexivity.
Qed.

(** The three comparison operators on [time OP t], [t] a literal. *)
Lemma getTime_expression_time_literal (c : ptr) (op : string) (t : Value)
    (b : bool) :
  isNumericValue t = true ->
  getTime_expression c (time_comparison op t) b
  = if String.eqb op ">" then
      if b then
        exec_bind (parseTime t) (fun r =>
          if r.2 is Some _ then Done (None, ZERO_TIME, r.2)
          else Done (None, time_of_nanoseconds r.1, None))
      else Done (Some c, ZERO_TIME, None)
    else if String.eqb op "<" then
      if b then Done (Some c, ZERO_TIME, None)
      else
        exec_bind (parseTime t) (fun r =>
          if r.2 is Some _ then Done (None, ZERO_TIME, r.2)
          else Done (None, time_of_nanoseconds r.1, None))
    else if String.eqb op "=" then
      exec_bind (parseTime t) (fun r =>
        if r.2 is Some _ then Done (None, ZERO_TIME, r.2)
        else Done (Some c, time_of_nanoseconds (int64 (r.1 * 1000)), None))
    else Done (None, ZERO_TIME, Some (InvalidTimeOperator op)).
Proof.
  intros Hnum. unfold getTime_expression, time_comparison, Expression.
  cbn [Type_ Elems Name SimpleName].
  assert (Ht : bool_decide (Type_ t <> ValueExpression)
               && bool_decide (Type_ t <> ValueFunctionCall) = true).
  { unfold isNumericValue in Hnum. destruct (Type_ t); try discriminate;
      reflexivity. }
  rewrite Ht, Hnum.
  rewrite (bool_decide_eq_false_2 (ValueExpression = ValueFunctionCall))
    by discriminate.
  rewrite !(bool_decide_eq_true_2 (ValueSimpleName <> _)) by discriminate.
  cbn.
  destruct (String.eqb op ">"), (String.eqb op "<"), (String.eqb op "="), b;
    cbn; try reflexivity;
    destruct (parseTime t) as [[n [e|]]| |]; reflexivity.
Qed.

(** The exact result on [time = t]: the leaf stays, and the evaluated
    operand is multiplied by 1000 before it becomes a time. *)
Lemma getTime_time_equal_result (fuel : nat) (h : heap) (c : ptr) (t : Value)
    (n : Z) (b : bool) :
  h !! c = Some (BoolExpression (time_comparison "=" t)) ->
  isNumericValue t = true ->
  parseTime t = Done (n, None) ->
  getTime (S fuel) h (Some c) b
  = Done (h, (Some c, time_of_nanoseconds (int64 (n * 1000)), None)).
Proof.
  intros Hc Hnum Hparse.
  rewrite (getTime_leaf _ _ _ _ _ Hc).
  rewrite getTime_expression_time_literal by exact Hnum.
  cbn. rewrite Hparse. reflexivity.
Qed.

(** ** Interior nodes *)

Lemma assign_children_kind (h : heap) (c : ptr) (l r : option ptr) (p : ptr) :
  kind <$> (assign_children h c l r !! p) = kind <$> (h !! p).
Proof.
  unfold assign_children.
  destruct (h !! c) as [[expr|op l0 r0]|] eqn:Hc; try reflexivity.
  destruct (decide (c = p)) as [->|Hne].
  - rewrite list_lookup_insert_eq by (eapply lookup_lt_Some; exact Hc).
    rewrite Hc. reflexivity.
  - rewrite list_lookup_insert_ne by exact Hne. reflexivity.
Qed.

(** One step of [getTime] on an interior node, with the three reads of
    the node made explicit. *)
Lemma getTime_node (fuel : nat) (h : heap) (c : ptr) (op : string)
    (l r : option ptr) (b : bool) (h1 : heap) (newLeft : option ptr)
    (timeLeft : Time) (op1 : string) (l1 r1 : option ptr) (h2 : heap)
    (newRight : option ptr) (timeRight : Time) (op2 : string)
    (l2 r2 : option ptr) :
  h !! c = Some (Combined op l r) ->
  getTime fuel h l b = Done (h1, (newLeft, timeLeft, None)) ->
  h1 !! c = Some (Combined op1 l1 r1) ->
  getTime fuel h1 r1 b = Done (h2, (newRight, timeRight, None)) ->
  h2 !! c = Some (Combined op2 l2 r2) ->
  getTime (S fuel) h (Some c) b
  = if String.eqb op2 "OR"
       && (bool_decide (timeLeft <> ZERO_TIME)
           || bool_decide (timeRight <> ZERO_TIME))
    then Done (h2, (None, ZERO_TIME, Some ConflictingOrTimeBounds))
    else
      let st :=
        match newLeft, newRight with
        | None, _ => (h2, newRight)
        | Some _, None => (h2, newLeft)
        | Some _, Some _ => (assign_children h2 c newLeft newRight, Some c)
        end in
      Done (st.1,
            (st.2,
             if bool_decide (timeLeft = ZERO_TIME) then timeRight
             else if bool_decide (timeRight = ZERO_TIME) then timeLeft
             else if b && (Time_Unix timeLeft <? Time_Unix timeRight)
                  then timeLeft
             else if negb b && (Time_Unix timeLeft >? Time_Unix timeRight)
                  then timeLeft
             else timeRight,
             None)).
Proof.
  intros Hc Hl Hc1 Hr Hc2.
  getTime_step. unfold load. rewrite Hc. cbn [exec_bind].
  rewrite Hl. cbn [exec_bind]. rewrite Hc1. cbn [exec_bind].
  rewrite Hr. cbn [exec_bind]. rewrite Hc2. cbn [exec_bind].
  destruct (String.eqb op2 "OR"
            && (bool_decide (timeLeft <> ZERO_TIME)
                || bool_decide (timeRight <> ZERO_TIME))); [reflexivity|].
  destruct newLeft, newRight; cbn;
    repeat (match goal with |- context [if ?x then _ else _] => destruct x end);
    reflexivity.
Qed.

(** [getTime] never changes the kind of a node, whatever it returns. *)
Lemma getTime_kind (fuel : nat) :
  forall (h : heap) (c : option ptr) (b : bool) (h' : heap) (r : getTime_result),
    getTime fuel h c b = Done (h', r) ->
    forall p : ptr, kind <$> (h' !! p) = kind <$> (h !! p).
Proof.
  induction fuel as [|fuel IH]; intros h c b h' r H p; [discriminate H|].
  getTime_step_in H. destruct c as [c|]; [|congruence].
  unfold load in H.
  destruct (h !! c) as [[expr|op l rr]|] eqn:Hc; [| |discriminate H].
  - cbn [exec_bind] in H.
    destruct (getTime_expression c expr b); cbn in H; congruence.
  - cbn [exec_bind] in H.
    destruct (getTime fuel h l b) as [[h1 [[nl tl] el]]| |] eqn:Hl;
      [|discriminate H..].
    cbn [exec_bind] in H. pose proof (IH _ _ _ _ _ Hl) as K1.
    destruct el; [injection H as <- _; apply K1|].
    destruct (h1 !! c) as [[e1|op1 l1 r1]|] eqn:Hc1; [discriminate H| |discriminate H].
    cbn [exec_bind] in H.
    destruct (getTime fuel h1 r1 b) as [[h2 [[nr tr] er]]| |] eqn:Hr;
      [|discriminate H..].
    cbn [exec_bind] in H. pose proof (IH _ _ _ _ _ Hr) as K2.
    destruct er; [injection H as <- _; rewrite K2; apply K1|].
    destruct (h2 !! c) as [[e2|op2 l2 r2]|] eqn:Hc2; [discriminate H| |discriminate H].
    cbn [exec_bind] in H.
    assert (Hh : kind <$> (h' !! p) = kind <$> (h2 !! p)).
    { destruct (String.eqb op2 "OR"
                && (bool_decide (tl <> ZERO_TIME) || bool_decide (tr <> ZERO_TIME)));
        [injection H as <- _; reflexivity|].
      destruct nl, nr; cbn in H;
        repeat (match type of H with
                | context [if ?x then _ else _] => destruct x
                end);
        injection H as <- _; try reflexivity; apply assign_children_kind. }
    rewrite Hh, K2. apply K1.
Qed.

(** The operation of an interior node is the same at each of the reads. *)
Lemma getTime_keeps_operation (fuel : nat) (h : heap) (c : option ptr)
    (b : bool) (h' : heap) (r : getTime_result) (p : ptr) (op : string)
    (l rr : option ptr) :
  getTime fuel h c b = Done (h', r) ->
  h !! p = Some (Combined op l rr) ->
  exists l' r', h' !! p = Some (Combined op l' r').
Proof.
  intros H Hp. pose proof (getTime_kind _ _ _ _ _ _ H p) as K.
  rewrite Hp in K. destruct (h' !! p) as [[e|op' l' r']|]; try discriminate K.
  injection K as ->. eauto.
Qed.

(** ** The claims on single leaves *)

(** C1 (as amended): for a tree that is the single comparison leaf
    [time = T], [T] a literal the evaluator accepts, the extractor
    returns, in both extraction modes, the leaf itself (it is not
    consumed) together with one and the same non-zero time, without
    error and without touching the heap. *)
Theorem getTime_time_equal_keeps_leaf (fuel : nat) (h : heap) (c : ptr)
    (t : Value) (n : Z) :
  h !! c = Some (BoolExpression (time_comparison "=" t)) ->
  isNumericValue t = true ->
  parseTime t = Done (n, None) ->
  exists T : Time,
    T <> ZERO_TIME /\
    forall isParsingStartTime : bool,
      getTime (S fuel) h (Some c) isParsingStartTime
      = Done (h, (Some c, T, None)).
Proof.
  intros Hc Hnum Hparse.
  exists (time_of_nanoseconds (int64 (n * 1000))). split.
  - apply time_of_nanoseconds_not_ZERO_TIME.
  - intros b. exact (getTime_time_equal_result fuel h c t n b Hc Hnum Hparse).
Qed.


(** C5: a leaf whose boolean expression is a bare value of kind
    duration, float, int, string or wildcard makes the extractor fail with
    [InvalidWhereExpression], in both extraction modes. *)
Theorem getTime_bare_literal (fuel : nat) (h : heap) (c : ptr) (expr : Value)
    (isParsingStartTime : bool) :
  h !! c = Some (BoolExpression expr) ->
  Type_ expr ∈ [ValueDuration; ValueFloat; ValueInt; ValueString; ValueWildcard] ->
  getTime (S fuel) h (Some c) isParsingStartTime
  = Done (h, (None, ZERO_TIME, Some (InvalidWhereExpression expr))).
Proof.
  intros Hc Hty. rewrite (getTime_leaf _ _ _ _ _ Hc).
  unfold getTime_expression.
  repeat (apply elem_of_cons in Hty as [->|Hty]; [reflexivity|]).
  apply elem_of_nil in Hty. destruct Hty.
Qed.

(** ** The claims on interior nodes *)

(** C2 (as amended): for an interior OR node both of whose recursive
    calls return without error, the extractor fails with
    [ConflictingOrTimeBounds] exactly when at least one of the two
    extracted times is non-zero; when both are [ZERO_TIME] it returns
    [ZERO_TIME] without error.  The calls run one after the other on the
    heap: [h1] is the heap the left call leaves and [r1] the right child
    of the node as read from it. *)
Theorem getTime_OR (fuel : nat) (h : heap) (c : ptr) (l r : option ptr)
    (b : bool) (h1 : heap) (newLeft : option ptr) (timeLeft : Time)
    (op1 : string) (l1 r1 : option ptr) (h2 : heap)
    (newRight : option ptr) (timeRight : Time) :
  h !! c = Some (Combined "OR" l r) ->
  getTime fuel h l b = Done (h1, (newLeft, timeLeft, None)) ->
  h1 !! c = Some (Combined op1 l1 r1) ->
  getTime fuel h1 r1 b = Done (h2, (newRight, timeRight, None)) ->
  exists (h' : heap) (res : getTime_result),
    getTime (S fuel) h (Some c) b = Done (h', res)
    /\ (res.2 = Some ConflictingOrTimeBounds
        <-> timeLeft <> ZERO_TIME \/ timeRight <> ZERO_TIME)
    /\ (timeLeft <> ZERO_TIME \/ timeRight <> ZERO_TIME ->
        res = (None, ZERO_TIME, Some ConflictingOrTimeBounds))
    /\ (timeLeft = ZERO_TIME -> timeRight = ZERO_TIME ->
        res.2 = None /\ res.1.2 = ZERO_TIME).
Proof.
  intros Hc Hl Hc1 Hr.
  destruct (getTime_keeps_operation _ _ _ _ _ _ _ _ _ _ Hl Hc) as (l1' & r1' & Hc1').
  destruct (getTime_keeps_operation _ _ _ _ _ _ _ _ _ _ Hr Hc1') as (l2 & r2 & Hc2).
  rewrite (getTime_node _ _ _ _ _ _ _ _ _ _ _ _ _ _ _ _ _ _ _ Hc Hl Hc1 Hr Hc2).
  cbn [String.eqb Ascii.eqb Bool.eqb andb].
  destruct (decide (timeLeft = ZERO_TIME)) as [El|Nl];
    destruct (decide (timeRight = ZERO_TIME)) as [Er|Nr].
  - rewrite !bool_decide_eq_false_2 by (intros K; apply K; assumption).
    rewrite bool_decide_eq_true_2 by assumption.
    cbn [orb]. eexists _, _. split; [reflexivity|]. cbn.
    repeat split; try congruence; try tauto.
  - rewrite (bool_decide_eq_false_2 (timeLeft <> ZERO_TIME))
      by (intros K; apply K; assumption).
    rewrite (bool_decide_eq_true_2 (timeRight <> ZERO_TIME)) by assumption.
    cbn [orb]. eexists _, _. split; [reflexivity|]. cbn.
    repeat split; try congruence; try tauto.
  - rewrite (bool_decide_eq_true_2 (timeLeft <> ZERO_TIME)) by assumption.
    cbn [orb]. eexists _, _. split; [reflexivity|]. cbn.
    repeat split; try congruence; try tauto.
  - rewrite (bool_decide_eq_true_2 (timeLeft <> ZERO_TIME)) by assumption.
    cbn [orb]. eexists _, _. split; [reflexivity|]. cbn.
    repeat split; try congruence; try tauto.
Qed.


End TimeBoundFacts.

(** ** The claims at concrete trees *)

(** C1, witness: [time = 1s]. *)
Lemma getTime_time_equal_keeps_leaf_witness :
  Sample.heap_time_eq !! 0%nat
  = Some (BoolExpression (time_comparison "=" (Sample.duration "1s")))
  /\ isNumericValue (Sample.duration "1s") = true
  /\ Sample.parseTime (Sample.duration "1s") = Done (1000000000, None)
  /\ exists T : Time,
       T <> ZERO_TIME /\
       forall isParsingStartTime : bool,
         Sample.getTime 1 Sample.heap_time_eq (Some 0%nat) isParsingStartTime
         = Done (Sample.heap_time_eq, (Some 0%nat, T, None)).
Proof.
  split; [reflexivity|]. split; [reflexivity|]. split; [reflexivity|].
  apply (getTime_time_equal_keeps_leaf Sample.FindStringSubmatch Sample.Parse
           Sample.durations Sample.now 0 Sample.heap_time_eq 0%nat
           (Sample.duration "1s") 1000000000); reflexivity.
Defined.

(** C1, counterexample: on [time = 1s] the start-time extraction does not
    return the consumed tree (nil), whatever the time. *)
Lemma getTime_time_equal_not_consumed :
  ~ exists T : Time,
      Sample.getTime 1 Sample.heap_time_eq (Some 0%nat) true
      = Done (Sample.heap_time_eq, (None, T, None)).
Proof.
  intros [T H]. vm_compute in H. discriminate H.
Qed.


(** C5, witness: the bare string ['x'] as a where clause. *)
Lemma getTime_bare_literal_witness :
  [BoolExpression (Literal ValueString "x")] !! 0%nat
  = Some (BoolExpression (Literal ValueString "x"))
  /\ Type_ (Literal ValueString "x")
     ∈ [ValueDuration; ValueFloat; ValueInt; ValueString; ValueWildcard]
  /\ Sample.getTime 1 [BoolExpression (Literal ValueString "x")] (Some 0%nat) true
     = Done ([BoolExpression (Literal ValueString "x")],
             (None, ZERO_TIME,
              Some (InvalidWhereExpression (Literal ValueString "x")))).
Proof.
  split; [reflexivity|].
  assert (Hty : Type_ (Literal ValueString "x")
                ∈ [ValueDuration; ValueFloat; ValueInt; ValueString; ValueWildcard]).
  { cbn. do 3 apply list_elem_of_further. apply list_elem_of_here. }
  split; [exact Hty|].
  exact (getTime_bare_literal Sample.FindStringSubmatch Sample.Parse
           Sample.durations Sample.now 0
           [BoolExpression (Literal ValueString "x")] 0%nat
           (Literal ValueString "x") true eq_refl Hty).
Defined.

(** C2, witness: [time > 1s OR a = 'x']. *)
Lemma getTime_OR_witness :
  Sample.heap_or !! 0%nat = Some (Combined "OR" (Some 1%nat) (Some 2%nat))
  /\ Sample.getTime 1 Sample.heap_or (Some 1%nat) true
     = Done (Sample.heap_or, (None, time_of_nanoseconds 1000000000, None))
  /\ Sample.getTime 1 Sample.heap_or (Some 2%nat) true
     = Done (Sample.heap_or, (Some 2%nat, ZERO_TIME, None))
  /\ exists (h' : heap) (res : getTime_result),
       Sample.getTime 2 Sample.heap_or (Some 0%nat) true = Done (h', res)
       /\ (res.2 = Some ConflictingOrTimeBounds
           <-> time_of_nanoseconds 1000000000 <> ZERO_TIME
               \/ ZERO_TIME <> ZERO_TIME)
       /\ (time_of_nanoseconds 1000000000 <> ZERO_TIME \/ ZERO_TIME <> ZERO_TIME ->
           res = (None, ZERO_TIME, Some ConflictingOrTimeBounds))
       /\ (time_of_nanoseconds 1000000000 = ZERO_TIME -> ZERO_TIME = ZERO_TIME ->
           res.2 = None /\ res.1.2 = ZERO_TIME).
Proof.
  split; [reflexivity|]. split; [reflexivity|]. split; [reflexivity|].
  apply (getTime_OR Sample.FindStringSubmatch Sample.Parse Sample.durations
           Sample.now 1 Sample.heap_or 0%nat (Some 1%nat) (Some 2%nat) true
           Sample.heap_or None (time_of_nanoseconds 1000000000)
           "OR" (Some 1%nat) (Some 2%nat)
           Sample.heap_or (Some 2%nat) ZERO_TIME); reflexivity.
Defined.

(** C2, counterexample: in [time > 1s OR a = 'x'] only the left branch
    yields a non-zero time, and the extractor fails all the same. *)
Lemma getTime_OR_one_time_fails :
  Sample.getTime 1 Sample.heap_or (Some 1%nat) true
  = Done (Sample.heap_or, (None, mkTime 1 0 UTC, None))
  /\ mkTime 1 0 UTC <> ZERO_TIME
  /\ Sample.getTime 1 Sample.heap_or (Some 2%nat) true
     = Done (Sample.heap_or, (Some 2%nat, ZERO_TIME, None))
  /\ Sample.getTime 2 Sample.heap_or (Some 0%nat) true
     = Done (Sample.heap_or, (None, ZERO_TIME, Some ConflictingOrTimeBounds)).
Proof.
  split; [reflexivity|]. split; [discriminate|]. split; reflexivity.
Qed.




(** * Properties of the column-reference resolver *)

(** ** Strings *)

Lemma append_cons (a : ascii) (s t : string) :
  String a s +:+ t = String a (s +:+ t).
Proof. reflexivity. Qed.

Lemma append_nil (t : string) : "" +:+ t = t.
Proof. reflexivity. Qed.

Lemma prefix_empty (s : string) : String.prefix "" s = true.
Proof. destruct s; reflexivity. Qed.

Lemma length_append (s t : string) :
  String.length (s +:+ t) = (String.length s + String.length t)%nat.
Proof.
  induction s as [|a s IH]; [reflexivity|].
  rewrite append_cons. cbn [String.length]. rewrite IH. reflexivity.
Qed.

Lemma substring_0_0 (s : string) : String.substring 0 0 s = "".
Proof. destruct s; reflexivity. Qed.

Lemma substring_0_length (s : string) :
  String.substring 0 (String.length s) s = s.
Proof.
  induction s as [|a s IH]; [reflexivity|].
  cbn [String.length String.substring]. rewrite IH. reflexivity.
Qed.

Lemma slice_to_append (p rest : string) :
  slice_to (p +:+ rest) (Z.of_nat (String.length p)) = p.
Proof.
  unfold slice_to. rewrite Nat2Z.id.
  induction p as [|a p IH].
  - rewrite append_nil. apply substring_0_0.
  - rewrite append_cons. cbn [String.length String.substring].
    rewrite IH. reflexivity.
Qed.

Lemma slice_from_append (p : string) (a : ascii) (c : string) :
  slice_from (p +:+ String a c) (Z.of_nat (String.length p) + 1) = c.
Proof.
  unfold slice_from.
  replace (Z.to_nat (Z.of_nat (String.length p) + 1)) with (S (String.length p))
    by lia.
  rewrite length_append. cbn [String.length].
  replace (String.length p + S (String.length c) - S (String.length p))%nat
    with (String.length c) by lia.
  induction p as [|b p IH].
  - rewrite append_nil. cbn [String.length String.substring].
    apply substring_0_length.
  - rewrite append_cons. cbn [String.length String.substring]. exact IH.
Qed.

(** [strings.LastIndex(s, ".")] on a string without a dot, and on a string
    split at its last dot. *)
Lemma LastIndex_from_no_dot (s : string) (i : Z) :
  has_dot s = false -> LastIndex_from i s "." = -1.
Proof.
  revert i. induction s as [|a s IH]; intros i H; [reflexivity|].
  cbn [has_dot] in H. apply orb_false_iff in H as [Ha Hs].
  cbn [LastIndex_from]. rewrite (IH _ Hs). cbn [Z.leb Z.compare].
  cbn [String.prefix]. destruct (ascii_dec "." a) as [<-|_]; [|reflexivity].
  discriminate Ha.
Qed.

Lemma LastIndex_from_last_dot (p c : string) (i : Z) :
  0 <= i ->
  has_dot c = false ->
  LastIndex_from i (p +:+ "." +:+ c) "." = i + Z.of_nat (String.length p).
Proof.
  intros Hi Hc. revert i Hi. induction p as [|a p IH]; intros i Hi.
  - rewrite append_nil. change ("." +:+ c) with (String "." c).
    cbn [LastIndex_from]. rewrite (LastIndex_from_no_dot _ _ Hc).
    cbn [Z.leb Z.compare String.prefix].
    destruct (ascii_dec "." ".") as [_|N]; [|destruct N; reflexivity].
    rewrite prefix_empty. cbn [String.length]. lia.
  - rewrite append_cons. cbn [LastIndex_from].
    rewrite IH by lia. cbn [String.length].
    destruct (Z.leb_spec 0 (i + 1 + Z.of_nat (String.length p))); lia.
Qed.

(** A string with a dot splits at its last dot. *)
Lemma has_dot_split (s : string) :
  has_dot s = true ->
  exists p c : string, s = p +:+ "." +:+ c /\ has_dot c = false.
Proof.
  induction s as [|a s IH]; intros H; [discriminate H|].
  cbn [has_dot] in H. destruct (has_dot s) eqn:Hs.
  - destruct (IH eq_refl) as (p & c & -> & Hc).
    exists (String a p), c. split; [reflexivity|exact Hc].
  - rewrite orb_false_r in H. apply Ascii.eqb_eq in H as ->.
    exists "", s. split; [reflexivity|exact Hs].
Qed.

Lemma strings_LastIndex_dot (s : string) :
  strings_LastIndex s "." <> -1 <-> has_dot s = true.
Proof.
  unfold strings_LastIndex. split.
  - intros H. destruct (has_dot s) eqn:Hs; [reflexivity|].
    destruct H. apply LastIndex_from_no_dot. exact Hs.
  - intros H. destruct (has_dot_split _ H) as (p & c & -> & Hc).
    rewrite LastIndex_from_last_dot by (lia || assumption). lia.
Qed.

(** ** The per-Value collector *)

(** An identifier [prefix.column] whose [column] has no dot goes to the
    prefix mapping. *)
Lemma getReferencedColumnsFromValue_split (prefix column : string)
    (type : ValueType) (elems : list Value) (regex : bool)
    (mapping : gmap string (list string)) :
  type = ValueSimpleName \/ type = ValueTableName ->
  has_dot column = false ->
  getReferencedColumnsFromValue
    (mkValue (prefix +:+ "." +:+ column) type elems regex) mapping
  = ([], <[prefix := slice_at mapping prefix ++ [column]]> mapping).
Proof.
  intros Hty Hc.
  assert (Hidx : strings_LastIndex (prefix +:+ "." +:+ column) "."
                 = Z.of_nat (String.length prefix)).
  { unfold strings_LastIndex. rewrite LastIndex_from_last_dot by (lia || assumption).
    lia. }
  assert (Hbody :
    (let idx := strings_LastIndex (prefix +:+ "." +:+ column) "." in
     if bool_decide (idx <> -1) then
       let tableName := slice_to (prefix +:+ "." +:+ column) idx in
       let columnName := slice_from (prefix +:+ "." +:+ column) (idx + 1) in
       ([], <[tableName := slice_at mapping tableName ++ [columnName]]> mapping)
     else ([prefix +:+ "." +:+ column], mapping))
    = ([], <[prefix := slice_at mapping prefix ++ [column]]> mapping)).
  { cbv zeta. rewrite Hidx. rewrite bool_decide_eq_true_2 by lia.
    rewrite slice_to_append.
    change ("." +:+ column) with (String "." column).
    rewrite slice_from_append. reflexivity. }
  destruct Hty as [-> | ->]; exact Hbody.
Qed.

(** C10: a simple-name or table-name Value whose identifier contains a dot
    is split at its last dot: everything before it is the key of the
    prefix mapping, the final, dot-free segment is appended to the columns
    of that key, and nothing is added to the unprefixed columns. *)
Theorem getReferencedColumnsFromValue_last_dot (v : Value)
    (mapping : gmap string (list string)) :
  Type_ v = ValueSimpleName \/ Type_ v = ValueTableName ->
  has_dot (Name v) = true ->
  exists prefix column : string,
    Name v = prefix +:+ "." +:+ column
    /\ has_dot column = false
    /\ getReferencedColumnsFromValue v mapping
       = ([], <[prefix := slice_at mapping prefix ++ [column]]> mapping).
Proof.
  intros Hty Hdot. destruct v as [name type elems regex]. cbn in Hty, Hdot.
  destruct (has_dot_split _ Hdot) as (p & c & -> & Hc).
  exists p, c. split; [reflexivity|]. split; [exact Hc|].
  apply getReferencedColumnsFromValue_split; assumption.
Qed.

(** C10, witness: [a.b.c]. *)
Lemma getReferencedColumnsFromValue_last_dot_witness :
  (Type_ (SimpleName "a.b.c") = ValueSimpleName
   \/ Type_ (SimpleName "a.b.c") = ValueTableName)
  /\ has_dot (Name (SimpleName "a.b.c")) = true
  /\ exists prefix column : string,
       Name (SimpleName "a.b.c") = prefix +:+ "." +:+ column
       /\ has_dot column = false
       /\ getReferencedColumnsFromValue (SimpleName "a.b.c") ∅
          = ([], <[prefix := slice_at ∅ prefix ++ [column]]> ∅).
Proof.
  split; [left; reflexivity|]. split; [reflexivity|].
  apply (getReferencedColumnsFromValue_last_dot (SimpleName "a.b.c") ∅);
    [left; reflexivity|reflexivity].
Defined.

(** [a.b.c] yields the prefix [a.b] and the column [c]. *)
Example getReferencedColumnsFromValue_a_b_c :
  getReferencedColumnsFromValue (SimpleName "a.b.c") ∅
  = ([], {["a.b" := ["c"]]}).
Proof.
  exact (getReferencedColumnsFromValue_split "a.b" "c" ValueSimpleName [] false ∅
           (or_introl eq_refl) eq_refl).
Qed.

(** ** The order of iteration *)

Section IterationOrder.

Context {order : MapRange}.

Lemma range_of_empty (A : Type) : range_of (∅ : gmap string A) = [].
Proof.
  apply Permutation_nil_r. rewrite range_of_perm, map_to_list_empty.
  reflexivity.
Qed.

Lemma range_of_singleton (A : Type) (k : string) (x : A) :
  range_of ({[k := x]} : gmap string A) = [(k, x)].
Proof.
  apply Permutation_singleton_r.
  rewrite range_of_perm, map_to_list_singleton. reflexivity.
Qed.

(** [uniq] sorts what it has collected: the order of the iteration over
    its map does not show in the result. *)
Lemma uniq_canonical (slice : list string) :
  @uniq order slice = @uniq MapRange_canonical slice.
Proof.
  unfold uniq. apply (Sorted_unique String.le).
  - apply Sorted_merge_sort; apply _.
  - apply Sorted_merge_sort; apply _.
  - rewrite !merge_sort_Permutation. cbn [range_of MapRange_canonical].
    rewrite range_of_perm. reflexivity.
Qed.

Lemma attachTable_canonical (notPrefixedColumns : list string)
    (st : tables_state) (entry : nat * TableName) :
  @attachTable order notPrefixedColumns st entry
  = @attachTable MapRange_canonical notPrefixedColumns st entry.
Proof.
  unfold attachTable. destruct st as [[added returned] mapping].
  destruct entry as [key table]. rewrite uniq_canonical. reflexivity.
Qed.

Lemma attachTables_canonical (notPrefixedColumns : list string)
    (names : list TableName) (mapping : gmap string (list string)) :
  @attachTables order notPrefixedColumns names mapping
  = @attachTables MapRange_canonical notPrefixedColumns names mapping.
Proof.
  unfold attachTables. generalize (zip (seq 0 (length names)) names).
  generalize ((∅, ∅, mapping) : tables_state).
  intros st entries. revert st.
  induction entries as [|entry entries IH]; intros st; [reflexivity|].
  cbn [foldl]. rewrite attachTable_canonical. apply IH.
Qed.

(** A single collected set with a single column is stored as a
    one-element slice. *)
Lemma storeColumns_singleton (table column : string)
    (mapping : gmap string (list string)) :
  storeColumns {[table := {[column := true]}]} mapping
  = <[table := [column]]> mapping.
Proof.
  unfold storeColumns. rewrite range_of_singleton. cbn [foldl].
  rewrite range_of_singleton. reflexivity.
Qed.

Lemma storeColumns_empty (mapping : gmap string (list string)) :
  storeColumns ∅ mapping = mapping.
Proof. unfold storeColumns. rewrite range_of_empty. reflexivity. Qed.

(** A single left-over prefix with a single column. *)
Lemma reattachLeftovers_singleton (returnedMapping : gmap nat (list string))
    (prefix column : string) :
  reattachLeftovers returnedMapping {[prefix := [column]]}
  = reattach returnedMapping prefix column.
Proof.
  unfold reattachLeftovers. rewrite range_of_singleton. reflexivity.
Qed.

End IterationOrder.

(** ** The claims at concrete queries *)

(** C7: [SELECT value FROM a AS x INNER JOIN b AS y WHERE x.host = 'srv1']
    yields, whatever the order of iteration over the maps, [host] and
    [value] for table [a] (entry 0) and [value] for table [b] (entry 1). *)
Theorem GetReferencedColumns_join (order : MapRange) (fuel : nat) :
  @GetReferencedColumns order (S fuel) Sample.heap_join Sample.query_join
  = Done {[0%nat := ["host"; "value"]; 1%nat := ["value"]]}.
Proof.
  assert (Hcollect :
    collectColumns (S fuel) Sample.heap_join Sample.query_join
    = Done (["value"], {["x" := ["host"]]})) by (vm_compute; reflexivity).
  assert (Hgather :
    gatherColumns (Names (GetFromClause Sample.query_join)) {["x" := ["host"]]}
    = ({["a" := {["host" := true]}]}, ∅)) by (vm_compute; reflexivity).
  assert (Hattach :
    @attachTables MapRange_canonical ["value"]
      (Names (GetFromClause Sample.query_join)) (<["a" := ["host"]]> ∅)
    = ({["a"; "b"]}, {[0%nat := ["host"; "value"]; 1%nat := ["value"]]}, ∅))
    by (vm_compute; reflexivity).
  unfold GetReferencedColumns. rewrite Hcollect. cbn [exec_bind].
  rewrite uniq_canonical.
  replace (@uniq MapRange_canonical ["value"]) with ["value"]
    by (vm_compute; reflexivity).
  unfold revertAlias.
  rewrite bool_decide_eq_false_2 by (intros K; apply K; reflexivity).
  rewrite Hgather, storeColumns_singleton, attachTables_canonical, Hattach.
  reflexivity.
Qed.

(** C9, at the failing input [SELECT *, x, a.b FROM t]: the list of table
    [t] is collapsed to the wildcard by the loop over the tables, and the
    left-over prefix [a] is re-attached to it all the same, whatever the
    order of iteration over the maps. *)
Theorem GetReferencedColumns_star_dotted (order : MapRange) (fuel : nat) :
  collectColumns (S fuel) [] Sample.query_star_dotted
  = Done (["*"; "x"], {["a" := ["b"]]})
  /\ (@attachTables order (@uniq order ["*"; "x"])
        (Names (GetFromClause Sample.query_star_dotted))
        {["a" := ["b"]]}).1.2 = {[0%nat := ["*"]]}
  /\ @GetReferencedColumns order (S fuel) [] Sample.query_star_dotted
     = Done {[0%nat := ["*"; "a.b"]]}.
Proof.
  assert (Hcollect :
    collectColumns (S fuel) [] Sample.query_star_dotted
    = Done (["*"; "x"], {["a" := ["b"]]})) by (vm_compute; reflexivity).
  assert (Huniq : @uniq order ["*"; "x"] = ["*"; "x"]).
  { rewrite uniq_canonical. vm_compute. reflexivity. }
  assert (Hattach :
    @attachTables MapRange_canonical ["*"; "x"]
      (Names (GetFromClause Sample.query_star_dotted)) {["a" := ["b"]]}
    = ({["t"]}, {[0%nat := ["*"]]}, {["a" := ["b"]]}))
    by (vm_compute; reflexivity).
  split; [exact Hcollect|]. split.
  - rewrite Huniq, attachTables_canonical, Hattach. reflexivity.
  - unfold GetReferencedColumns. rewrite Hcollect. cbn [exec_bind].
    rewrite Huniq. unfold revertAlias.
    rewrite bool_decide_eq_true_2 by discriminate.
    rewrite attachTables_canonical, Hattach.
    rewrite bool_decide_eq_false_2 by (vm_compute; discriminate).
    rewrite reattachLeftovers_singleton. vm_compute. reflexivity.
Qed.

(** C8, counterexample: [SELECT a.b FROM /.*cpu.*/] has no unprefixed
    column, and the list of the regex table holds the dotted entry [a.b]. *)
Lemma GetReferencedColumns_regex_dotted :
  collectColumns 1 [] Sample.query_regex_dotted = Done ([], {["a" := ["b"]]})
  /\ GetCompiledRegex (Regex ".*cpu.*") = true
  /\ @GetReferencedColumns MapRange_canonical 1 [] Sample.query_regex_dotted
     = Done {[0%nat := ["a.b"]]}
  /\ has_dot "a.b" = true.
Proof.
  repeat split; vm_compute; reflexivity.
Qed.

(** ** Unprefixed columns have no dot *)

Lemma Value_nested_ind (P : Value -> Prop) :
  (forall name type elems regex,
      Forall P elems -> P (mkValue name type elems regex)) ->
  forall v : Value, P v.
Proof.
  intros H. fix IH 1. intros [name type elems regex]. apply H.
  induction elems as [|e elems IHe]; constructor; [apply IH|exact IHe].
Qed.

Lemma dot_free_nil : dot_free [].
Proof. intros column H. apply elem_of_nil in H. destruct H. Qed.

Lemma dot_free_app (l k : list string) :
  dot_free l -> dot_free k -> dot_free (l ++ k).
Proof.
  intros Hl Hk column H. apply elem_of_app in H as [H|H]; auto.
Qed.

Lemma dot_free_tail (first : string) (rest : list string) :
  dot_free (first :: rest) -> dot_free rest.
Proof. intros H column Hc. apply H. apply elem_of_cons. right. exact Hc. Qed.

Lemma collectElems_dot_free
    (collect : Value -> gmap string (list string)
               -> list string * gmap string (list string))
    (elems : list Value) :
  Forall (fun v => forall mapping, dot_free (collect v mapping).1) elems ->
  forall (notAssigned : list string) (mapping : gmap string (list string)),
    dot_free notAssigned ->
    dot_free (collectElems collect elems notAssigned mapping).1.
Proof.
  induction 1 as [|value elems Hv _ IH]; intros notAssigned mapping Hacc;
    [exact Hacc|].
  cbn [collectElems]. specialize (Hv mapping).
  destruct (collect value mapping) as [new mapping'] eqn:E. cbn [fst] in Hv.
  apply IH. apply dot_free_app; [exact Hacc|].
  destruct new as [|first rest]; [exact Hv|].
  destruct (String.eqb first "*"); [|exact Hv].
  exact (dot_free_tail _ _ Hv).
Qed.

Lemma getReferencedColumnsFromValue_dot_free (v : Value) :
  forall mapping : gmap string (list string),
    dot_free (getReferencedColumnsFromValue v mapping).1.
Proof.
  induction v as [name type elems regex IH] using Value_nested_ind.
  intros mapping.
  assert (Hname :
    dot_free
      (let idx := strings_LastIndex name "." in
       if bool_decide (idx <> -1) then
         let tableName := slice_to name idx in
         let columnName := slice_from name (idx + 1) in
         ([], <[tableName := slice_at mapping tableName ++ [columnName]]> mapping)
       else ([name], mapping)).1).
  { cbv zeta. case_bool_decide as Hidx; [apply dot_free_nil|].
    intros column Hc. apply list_elem_of_singleton in Hc as ->.
    destruct (has_dot name) eqn:Hd; [|reflexivity].
    apply strings_LastIndex_dot in Hd. contradiction. }
  assert (Helems :
    dot_free (collectElems getReferencedColumnsFromValue elems [] mapping).1).
  { apply collectElems_dot_free; [exact IH|apply dot_free_nil]. }
  destruct type; cbn [getReferencedColumnsFromValue];
    try exact Hname; try exact Helems; try apply dot_free_nil.
  intros column Hc. apply list_elem_of_singleton in Hc as ->. reflexivity.
Qed.

Lemma addValueColumns_dot_free (st : list string * gmap string (list string))
    (value : Value) :
  dot_free st.1 -> dot_free (addValueColumns st value).1.
Proof.
  intros H. unfold addValueColumns. destruct st as [columns mapping].
  pose proof (getReferencedColumnsFromValue_dot_free value mapping) as Hv.
  destruct (getReferencedColumnsFromValue value mapping) as [new mapping'].
  apply dot_free_app; assumption.
Qed.

Lemma foldl_addValueColumns_dot_free (values : list Value) :
  forall st : list string * gmap string (list string),
    dot_free st.1 -> dot_free (foldl addValueColumns st values).1.
Proof.
  induction values as [|value values IH]; intros st H; [exact H|].
  cbn [foldl]. apply IH. apply addValueColumns_dot_free. exact H.
Qed.

Lemma getReferencedColumnsFromCondition_dot_free (fuel : nat) :
  forall (h : heap) (condition : option ptr)
         (mapping : gmap string (list string))
         (r : list string * gmap string (list string)),
    getReferencedColumnsFromCondition fuel h condition mapping = Done r ->
    dot_free r.1.
Proof.
  induction fuel as [|fuel IH]; intros h condition mapping r H; [discriminate H|].
  cbn [getReferencedColumnsFromCondition] in H.
  destruct condition as [c|]; [|discriminate H].
  destruct (h !! c) as [[expr|op l rr]|]; [| |discriminate H].
  - injection H as <-. apply getReferencedColumnsFromValue_dot_free.
  - destruct (getReferencedColumnsFromCondition fuel h l mapping)
      as [[cols1 mapping1]| |] eqn:H1; [|discriminate H..].
    cbn [exec_bind] in H.
    destruct (getReferencedColumnsFromCondition fuel h rr mapping1)
      as [[cols2 mapping2]| |] eqn:H2; [|discriminate H..].
    cbn [exec_bind] in H. injection H as <-.
    apply dot_free_app; [exact (IH _ _ _ _ H1)|exact (IH _ _ _ _ H2)].
Qed.

Lemma foldl_columnNames_dot_free (values : list Value) :
  forall st : list string * gmap string (list string),
    dot_free st.1 ->
    dot_free
      (foldl (fun (st : list string * gmap string (list string)) value =>
                if String.eqb (Name value) "time"
                   || String.eqb (Name value) "sequence_number"
                then st
                else addValueColumns st value)
             st values).1.
Proof.
  induction values as [|value values IH]; intros st H; [exact H|].
  cbn [foldl]. apply IH.
  destruct (String.eqb (Name value) "time"
            || String.eqb (Name value) "sequence_number"); [exact H|].
  apply addValueColumns_dot_free. exact H.
Qed.

Lemma collectColumns_dot_free (fuel : nat) (h : heap) (q : SelectQuery)
    (r : list string * gmap string (list string)) :
  collectColumns fuel h q = Done r -> dot_free r.1.
Proof.
  unfold collectColumns.
  pose proof (foldl_columnNames_dot_free (ColumnNames q) ([], ∅) dot_free_nil)
    as H0.
  destruct (foldl _ _ (ColumnNames q)) as [columns0 mapping0].
  cbn [fst snd] in *.
  destruct (negb (IsSinglePointQuery q)); [|intros [= <-]; exact H0].
  destruct (GetWhereCondition q) as [condition|].
  - destruct (getReferencedColumnsFromCondition fuel h (Some condition) mapping0)
      as [[cols mapping]| |] eqn:Hc; cbn [exec_bind]; [|discriminate..].
    intros [= <-]. apply foldl_addValueColumns_dot_free. cbn [fst].
    apply dot_free_app; [exact H0|].
    exact (getReferencedColumnsFromCondition_dot_free _ _ _ _ _ Hc).
  - cbn [exec_bind]. intros [= <-].
    apply foldl_addValueColumns_dot_free. exact H0.
Qed.

(** ** Regex tables *)

Section RegexTables.

Context {order : MapRange}.

Lemma uniqueMap_lookup (slice : list string) :
  forall (m : gmap string bool) (x : string),
    is_Some (foldl (fun m name => <[name := true]> m) m slice !! x) ->
    x ∈ slice \/ is_Some (m !! x).
Proof.
  induction slice as [|name slice IH]; intros m x H; [right; exact H|].
  cbn [foldl] in H. destruct (IH _ _ H) as [Hin|Hm].
  - left. apply elem_of_cons. right. exact Hin.
  - destruct (decide (name = x)) as [->|Hne].
    + left. apply elem_of_cons. left. reflexivity.
    + right. rewrite lookup_insert_ne in Hm by exact Hne. exact Hm.
Qed.

(** [uniq] returns strings of its argument only. *)
Lemma uniq_elem_of (slice : list string) (x : string) :
  x ∈ uniq slice -> x ∈ slice.
Proof.
  unfold uniq. rewrite merge_sort_Permutation, range_of_perm.
  intros H. apply list_elem_of_fmap in H as [[k v] [-> H]].
  apply elem_of_map_to_list in H. cbn [fst].
  destruct (uniqueMap_lookup slice ∅ k) as [Hin|[y Hy]];
    [rewrite H; eauto|exact Hin|].
  rewrite lookup_empty in Hy. discriminate Hy.
Qed.

Lemma uniq_dot_free (slice : list string) :
  dot_free slice -> dot_free (uniq slice).
Proof. intros H column Hc. apply H. apply uniq_elem_of. exact Hc. Qed.

(** The loop over the tables writes the entry of the table at hand
    only. *)
Lemma attachTable_other (notPrefixedColumns : list string)
    (st : tables_state) (key : nat) (table : TableName) (i : nat) :
  key <> i ->
  (attachTable notPrefixedColumns st (key, table)).1.2 !! i = st.1.2 !! i.
Proof.
  intros Hne. unfold attachTable. destruct st as [[added returned] mapping].
  destruct (GetCompiledRegex (TableName_Name table)); cbn [fst snd].
  - apply lookup_insert_ne. exact Hne.
  - case_bool_decide; cbn [fst snd]; [reflexivity|].
    apply lookup_insert_ne. exact Hne.
Qed.

Lemma foldl_attachTable_other (notPrefixedColumns : list string)
    (entries : list (nat * TableName)) (i : nat) :
  forall st : tables_state,
    i ∉ entries.*1 ->
    (foldl (attachTable notPrefixedColumns) st entries).1.2 !! i = st.1.2 !! i.
Proof.
  induction entries as [|[key table] entries IH]; intros st Hi; [reflexivity|].
  cbn [foldl]. cbn [fmap list_fmap fst] in Hi.
  apply not_elem_of_cons in Hi as [Hne Hi].
  rewrite IH by exact Hi. apply attachTable_other. congruence.
Qed.

Lemma foldl_attachTable_regex (notPrefixedColumns : list string)
    (entries : list (nat * TableName)) (i : nat) (table : TableName) :
  forall st : tables_state,
    NoDup entries.*1 ->
    (i, table) ∈ entries ->
    GetCompiledRegex (TableName_Name table) = true ->
    (foldl (attachTable notPrefixedColumns) st entries).1.2 !! i
    = Some notPrefixedColumns.
Proof.
  induction entries as [|[key t] entries IH]; intros st Hnd Hin Hre.
  - apply elem_of_nil in Hin. destruct Hin.
  - cbn [fmap list_fmap fst] in Hnd. apply NoDup_cons in Hnd as [Hkey Hnd].
    cbn [foldl]. apply elem_of_cons in Hin as [Heq|Hin].
    + injection Heq as <- <-. rewrite foldl_attachTable_other by exact Hkey.
      unfold attachTable. destruct st as [[added returned] mapping].
      rewrite Hre. cbn [fst snd]. apply lookup_insert_eq.
    + apply IH; assumption.
Qed.

Lemma attachTables_regex (notPrefixedColumns : list string)
    (names : list TableName) (mapping : gmap string (list string))
    (i : nat) (table : TableName) :
  names !! i = Some table ->
  GetCompiledRegex (TableName_Name table) = true ->
  (attachTables notPrefixedColumns names mapping).1.2 !! i
  = Some notPrefixedColumns.
Proof.
  intros Hi Hre. unfold attachTables.
  apply (foldl_attachTable_regex _ _ i table); [| |exact Hre].
  - rewrite fst_zip by (rewrite length_seq; lia). apply NoDup_seq.
  - apply list_elem_of_lookup. exists i.
    apply lookup_zip_Some. split; [|exact Hi].
    apply (lookup_seq_lt 0). eapply lookup_lt_Some. exact Hi.
Qed.

(** [SELECT * FROM r] for a single regex table [r]. *)
Lemma GetReferencedColumns_star_regex (fuel : nat) (h : heap) (regex : Value)
    (alias : string) (singlePoint : bool) :
  GetCompiledRegex regex = true ->
  GetReferencedColumns fuel h
    (mkSelectQuery [Wildcard]
       (mkFromClause FromClauseArray [mkTableName regex alias])
       None [] singlePoint)
  = Done {[0%nat := ["*"]]}.
Proof.
  intros Hre. unfold GetReferencedColumns.
  assert (Hcollect :
    collectColumns fuel h
      (mkSelectQuery [Wildcard]
         (mkFromClause FromClauseArray [mkTableName regex alias])
         None [] singlePoint)
    = Done (["*"], ∅)) by (destruct singlePoint; reflexivity).
  rewrite Hcollect. cbn [exec_bind]. rewrite uniq_canonical.
  replace (@uniq MapRange_canonical ["*"]) with ["*"]
    by (vm_compute; reflexivity).
  unfold revertAlias. cbn [GetFromClause FromClause_Type Names].
  rewrite bool_decide_eq_true_2 by discriminate.
  unfold attachTables. cbn [length seq zip zip_with foldl].
  unfold attachTable. cbn [TableName_Name]. rewrite Hre.
  rewrite bool_decide_eq_true_2 by reflexivity.
  rewrite insert_empty. reflexivity.
Qed.

(** C8 (as amended): the loop over the from-clause tables assigns to
    every table whose name is a regex exactly the unprefixed column set,
    and no unprefixed column contains a dot; so when no prefix mapping is
    left over after that loop, the list returned for a regex table is
    exactly the unprefixed column set and has no dotted entry.  (When a
    prefix mapping is left over, the recovery step may still append a
    [prefix.column] name to it.)  In particular a query projecting only
    the wildcard from a single regex table returns one entry, that of the
    regex table, equal to [["*"]]. *)
Theorem regex_table_columns (fuel : nat) (h : heap) (q : SelectQuery)
    (notPrefixedColumns : list string)
    (mapping : gmap string (list string)) :
  collectColumns fuel h q = Done (notPrefixedColumns, mapping) ->
  let st :=
    attachTables (uniq notPrefixedColumns) (Names (GetFromClause q))
                 (revertAlias q mapping) in
  (forall (i : nat) (table : TableName),
      Names (GetFromClause q) !! i = Some table ->
      GetCompiledRegex (TableName_Name table) = true ->
      st.1.2 !! i = Some (uniq notPrefixedColumns))
  /\ dot_free (uniq notPrefixedColumns)
  /\ (st.2 = ∅ -> GetReferencedColumns fuel h q = Done st.1.2)
  /\ (forall (regex : Value) (alias : string) (singlePoint : bool),
        GetCompiledRegex regex = true ->
        GetReferencedColumns fuel h
          (mkSelectQuery [Wildcard]
             (mkFromClause FromClauseArray [mkTableName regex alias])
             None [] singlePoint)
        = Done {[0%nat := ["*"]]}).
Proof.
  intros Hcollect st. repeat split.
  - intros i table Hi Hre. exact (attachTables_regex _ _ _ _ _ Hi Hre).
  - apply uniq_dot_free.
    exact (collectColumns_dot_free _ _ _ _ Hcollect).
  - intros Hempty. unfold GetReferencedColumns. rewrite Hcollect.
    cbn [exec_bind]. fold st.
    destruct st as [[added returned] leftover]. cbn [fst snd] in *.
    subst leftover. rewrite bool_decide_eq_true_2 by reflexivity.
    reflexivity.
  - intros regex alias singlePoint Hre.
    exact (GetReferencedColumns_star_regex _ _ _ _ _ Hre).
Qed.

End RegexTables.

(** C8, witness: [SELECT * FROM /.*cpu.*/]. *)
Lemma regex_table_columns_witness :
  collectColumns 0 [] Sample.query_regex = Done (["*"], ∅)
  /\ let st :=
       @attachTables MapRange_canonical (@uniq MapRange_canonical ["*"])
         (Names (GetFromClause Sample.query_regex))
         (@revertAlias MapRange_canonical Sample.query_regex ∅) in
     (forall (i : nat) (table : TableName),
         Names (GetFromClause Sample.query_regex) !! i = Some table ->
         GetCompiledRegex (TableName_Name table) = true ->
         st.1.2 !! i = Some (@uniq MapRange_canonical ["*"]))
     /\ dot_free (@uniq MapRange_canonical ["*"])
     /\ (st.2 = ∅ ->
         @GetReferencedColumns MapRange_canonical 0 [] Sample.query_regex
         = Done st.1.2)
     /\ (forall (regex : Value) (alias : string) (singlePoint : bool),
           GetCompiledRegex regex = true ->
           @GetReferencedColumns MapRange_canonical 0 []
             (mkSelectQuery [Wildcard]
                (mkFromClause FromClauseArray [mkTableName regex alias])
                None [] singlePoint)
           = Done {[0%nat := ["*"]]}).
Proof.
  split; [reflexivity|].
  exact (@regex_table_columns MapRange_canonical 0 [] Sample.query_regex
           ["*"] ∅ eq_refl).
Defined.

(** * Further properties of the time-bound extractor *)

(** ** Machine integers and times *)

Lemma int64_small (z : Z) : - 2 ^ 63 <= z < 2 ^ 63 -> int64 z = z.
Proof.
  intros H. unfold int64. rewrite Z.mod_small by lia. lia.
Qed.

Lemma time_of_nanoseconds_fields (n : Z) :
  loc (time_of_nanoseconds n) = UTC
  /\ 0 <= nsec (time_of_nanoseconds n) < 1000000000.
Proof.
  unfold time_of_nanoseconds, time_Unix, time_Second, Time_UTC.
  set (q := Z.quot n 1000000000). set (r := Z.rem n 1000000000).
  assert (Hr : - 1000000000 < r < 1000000000).
  { subst r. Z.to_euclidean_division_equations. lia. }
  assert (Hq : Z.quot r 1000000000 = 0).
  { Z.to_euclidean_division_equations. lia. }
  rewrite Hq.
  destruct (Z.ltb_spec r 0); destruct (Z.leb_spec 1000000000 r); cbn [orb];
    try lia.
  - replace (r - 0 * 1000000000) with r by lia.
    destruct (Z.ltb_spec r 0); [|lia]. cbn. split; [reflexivity|lia].
  - cbn. split; [reflexivity|lia].
Qed.

(** X1: line 435 splits the nanoseconds into seconds and a remainder with
    Go's truncating [/] and [%]; the time built from the two denotes the
    nanosecond it was built from, also before the epoch, where the
    remainder is negative. *)
Theorem time_of_nanoseconds_UnixNano (n : Z) :
  - 2 ^ 63 <= n < 2 ^ 63 ->
  Time_UnixNano (time_of_nanoseconds n) = n.
Proof.
  intros Hn.
  unfold time_of_nanoseconds, time_Unix, time_Second, Time_UTC, Time_UnixNano.
  set (q := Z.quot n 1000000000). set (r := Z.rem n 1000000000).
  assert (Hr : - 1000000000 < r < 1000000000
               /\ n = 1000000000 * q + r
               /\ - 9223372037 < q < 9223372037
               /\ (n < 0 -> r <= 0) /\ (0 <= n -> 0 <= r)).
  { subst q r. Z.to_euclidean_division_equations. lia. }
  destruct Hr as (Hr & Hnqr & Hq & Hneg & Hpos).
  assert (Hq0 : Z.quot r 1000000000 = 0).
  { Z.to_euclidean_division_equations. lia. }
  rewrite Hq0.
  destruct (Z.ltb_spec r 0); destruct (Z.leb_spec 1000000000 r); cbn [orb];
    try lia.
  - replace (r - 0 * 1000000000) with r by lia.
    destruct (Z.ltb_spec r 0); [|lia]. cbn [sec nsec].
    rewrite (int64_small (q + 0)) by lia.
    rewrite (int64_small (q + 0 - 1)) by lia.
    rewrite int64_small by lia. lia.
  - cbn [sec nsec]. rewrite int64_small by lia. lia.
Qed.

Lemma time_of_nanoseconds_UnixNano_witness :
  - 2 ^ 63 <= -1500000000 < 2 ^ 63
  /\ Time_UnixNano (time_of_nanoseconds (-1500000000)) = -1500000000.
Proof.
  split; [lia|]. apply (time_of_nanoseconds_UnixNano (-1500000000)). lia.
Defined.

(** ** What every call keeps *)

Section TimeBoundInvariants.

Variable time_regex_FindStringSubmatch : string -> list string.
Variable time_Parse : string -> string -> Time * option error.
Variable ParseTimeDuration : string -> Z * option error.
Variable time_Now_UnixNano : Z.

Abbreviation parseTime :=
  (parseTime time_regex_FindStringSubmatch time_Parse ParseTimeDuration
             time_Now_UnixNano).
Abbreviation getTime_expression :=
  (getTime_expression time_regex_FindStringSubmatch time_Parse
                      ParseTimeDuration time_Now_UnixNano).
Abbreviation getTime :=
  (getTime time_regex_FindStringSubmatch time_Parse ParseTimeDuration
           time_Now_UnixNano).

Lemma getTime_expression_shape (c : ptr) (expr : Value) (b : bool)
    (r : getTime_result) :
  getTime_expression c expr b = Done r -> leaf_result_shape c r.
Proof.
  unfold getTime_expression, leaf_result_shape. intros H.
  cbv zeta in H. unfold exec_bind in H.
  repeat (case_match; simplify_eq/=); split_and!; eauto; done.
Qed.

Lemma getTime_shape (fuel : nat) :
  forall (h : heap) (c : option ptr) (b : bool) (h' : heap) (r : getTime_result),
    getTime fuel h c b = Done (h', r) ->
    length h' = length h /\ result_shape h' r.
Proof.
  induction fuel as [|fuel IH]; intros h c b h' r H; [discriminate H|].
  getTime_step_in H. destruct c as [c|]; cycle 1.
  { simplify_eq. split; [reflexivity|]. unfold result_shape. cbn.
    split_and!; eauto; done. }
  unfold load in H.
  destruct (h !! c) as [[expr|op l rr]|] eqn:Hc; [| |discriminate H].
  - cbn [exec_bind] in H.
    destruct (getTime_expression c expr b) as [r0| |] eqn:He; cbn in H;
      [|discriminate H..].
    simplify_eq. split; [reflexivity|].
    destruct (getTime_expression_shape _ _ _ _ He) as (Hp & Herr & Ht).
    unfold result_shape. split_and!; [|exact Herr|exact Ht].
    intros p Hr. destruct Hp as [Hp|Hp]; [congruence|].
    rewrite Hp in Hr. injection Hr as <-. eapply lookup_lt_Some. exact Hc.
  - cbn [exec_bind] in H.
    destruct (getTime fuel h l b) as [[h1 [[nl tl] el]]| |] eqn:Hl;
      [|discriminate H..].
    cbn [exec_bind] in H.
    destruct (IH _ _ _ _ _ Hl) as (Len1 & Hp1 & Herr1 & Ht1). cbn [fst snd] in *.
    destruct el as [e|].
    { simplify_eq. split; [exact Len1|]. unfold result_shape. cbn.
      split_and!; eauto; done. }
    destruct (h1 !! c) as [[e1|op1 l1 r1]|] eqn:Hc1;
      [discriminate H| |discriminate H].
    cbn [exec_bind] in H.
    destruct (getTime fuel h1 r1 b) as [[h2 [[nr tr] er]]| |] eqn:Hr;
      [|discriminate H..].
    cbn [exec_bind] in H.
    destruct (IH _ _ _ _ _ Hr) as (Len2 & Hp2 & Herr2 & Ht2). cbn [fst snd] in *.
    destruct er as [e|].
    { simplify_eq. split; [congruence|]. unfold result_shape. cbn.
      split_and!; eauto; done. }
    destruct (h2 !! c) as [[e2|op2 l2 r2]|] eqn:Hc2;
      [discriminate H| |discriminate H].
    cbn [exec_bind] in H.
    assert (Hlen : forall x y, length (assign_children h2 c x y) = length h2).
    { intros x y. unfold assign_children. rewrite Hc2. apply length_insert. }
    assert (Hcv : (c < length h2)%nat) by (eapply lookup_lt_Some; exact Hc2).
    destruct (String.eqb op2 "OR"
              && (bool_decide (tl <> ZERO_TIME) || bool_decide (tr <> ZERO_TIME))).
    { simplify_eq. split; [congruence|]. unfold result_shape. cbn.
      split_and!; eauto; done. }
    destruct nl as [pl|], nr as [pr|]; cbn in H;
      repeat (match type of H with
              | context [if ?x then _ else _] => destruct x
              end);
      simplify_eq; (split; [rewrite ?Hlen; congruence|]);
      unfold result_shape; cbn [fst snd]; rewrite ?Hlen;
      (split_and!; [intros p [= <-]| done | assumption ]);
      first [ exact Hcv | apply Hp2; reflexivity
            | rewrite Len2; apply Hp1; reflexivity | idtac ].
Qed.

(** X2: an error of [getTime] always comes with the nil condition and
    [ZERO_TIME], whatever the tree and the mode (every [return] of lines
    358-476 that carries an error carries [nil, ZERO_TIME]). *)
Theorem getTime_error_result (fuel : nat) (h : heap) (c : option ptr)
    (b : bool) (h' : heap) (newCondition : option ptr) (T : Time) (e : error) :
  getTime fuel h c b = Done (h', (newCondition, T, Some e)) ->
  newCondition = None /\ T = ZERO_TIME.
Proof.
  intros H. destruct (getTime_shape _ _ _ _ _ _ H) as (_ & _ & Herr & _).
  apply Herr. discriminate.
Qed.

(** X3: [getTime] neither allocates nor frees nor retypes a node: the heap
    it leaves has the size of the one it was given, every leaf holds the
    boolean expression it held and every interior node the operation it
    had (only the children of interior nodes are assigned, lines
    459-460). *)
Theorem getTime_keeps_nodes (fuel : nat) (h : heap) (c : option ptr)
    (b : bool) (h' : heap) (r : getTime_result) :
  getTime fuel h c b = Done (h', r) ->
  length h' = length h
  /\ (forall (p : ptr) (expr : Value),
        h !! p = Some (BoolExpression expr) <-> h' !! p = Some (BoolExpression expr))
  /\ (forall (p : ptr) (op : string),
        (exists l r, h !! p = Some (Combined op l r))
        <-> (exists l r, h' !! p = Some (Combined op l r))).
Proof.
  intros H. split; [apply (getTime_shape _ _ _ _ _ _ H)|].
  pose proof (getTime_kind _ _ _ _ _ _ _ _ _ _ H) as K.
  split.
  - intros p expr. specialize (K p).
    destruct (h !! p) as [[e0|op0 l0 r0]|], (h' !! p) as [[e1|op1 l1 r1]|];
      cbn in K; simplify_eq; split; intros E; simplify_eq; reflexivity.
  - intros p op. specialize (K p).
    destruct (h !! p) as [[e0|op0 l0 r0]|], (h' !! p) as [[e1|op1 l1 r1]|];
      cbn in K; simplify_eq; split; intros (l & rr & E); simplify_eq; eauto.
Qed.

(** X4: the condition [getTime] returns is nil or the address of a node of
    the heap it leaves. *)
Theorem getTime_condition_allocated (fuel : nat) (h : heap) (c : option ptr)
    (b : bool) (h' : heap) (p : ptr) (T : Time) (err : option error) :
  getTime fuel h c b = Done (h', (Some p, T, err)) ->
  is_Some (h' !! p) /\ err = None.
Proof.
  intros H. destruct (getTime_shape _ _ _ _ _ _ H) as (_ & Hp & Herr & _).
  split.
  - apply lookup_lt_is_Some. apply Hp. reflexivity.
  - destruct err as [e|]; [|reflexivity].
    destruct Herr as [Hnil _]; [discriminate|discriminate Hnil].
Qed.

(** X5: the time [getTime] returns is [ZERO_TIME] or a time in UTC with
    its nanoseconds within the second; [ZERO_TIME] is a local time, so an
    extracted bound is never taken for the absence of one. *)
Theorem getTime_time_UTC (fuel : nat) (h : heap) (c : option ptr)
    (b : bool) (h' : heap) (newCondition : option ptr) (T : Time)
    (err : option error) :
  getTime fuel h c b = Done (h', (newCondition, T, err)) ->
  T = ZERO_TIME
  \/ (T <> ZERO_TIME /\ loc T = UTC /\ 0 <= nsec T < 1000000000).
Proof.
  intros H. destruct (getTime_shape _ _ _ _ _ _ H) as (_ & _ & _ & Ht).
  cbn in Ht. destruct Ht as [Ht|[n ->]]; [left; exact Ht|right].
  split; [apply time_of_nanoseconds_not_ZERO_TIME|].
  apply time_of_nanoseconds_fields.
Qed.

End TimeBoundInvariants.

Lemma getTime_error_result_witness :
  Sample.getTime 2 Sample.heap_or (Some 0%nat) true
  = Done (Sample.heap_or, (None, ZERO_TIME, Some ConflictingOrTimeBounds))
  /\ (@None ptr = None /\ ZERO_TIME = ZERO_TIME).
Proof.
  assert (H : Sample.getTime 2 Sample.heap_or (Some 0%nat) true
              = Done (Sample.heap_or,
                      (None, ZERO_TIME, Some ConflictingOrTimeBounds)))
    by (vm_compute; reflexivity).
  split; [exact H|].
  exact (getTime_error_result Sample.FindStringSubmatch Sample.Parse
           Sample.durations Sample.now _ _ _ _ _ _ _ _ H).
Defined.

(** Witness: the start-time extraction over
    [(time > 1s AND time < 5s) AND b = 'x'], which assigns the children of
    the root. *)
Lemma getTime_keeps_nodes_witness :
  Sample.getTime 3 Sample.heap_shared (Some 0%nat) true
  = Done (<[0%nat := Combined "AND" (Some 3%nat) (Some 4%nat)]> Sample.heap_shared,
          (Some 0%nat, time_of_nanoseconds 1000000000, None))
  /\ length (<[0%nat := Combined "AND" (Some 3%nat) (Some 4%nat)]> Sample.heap_shared)
     = length Sample.heap_shared
  /\ (forall (p : ptr) (expr : Value),
        Sample.heap_shared !! p = Some (BoolExpression expr)
        <-> <[0%nat := Combined "AND" (Some 3%nat) (Some 4%nat)]> Sample.heap_shared !! p
            = Some (BoolExpression expr))
  /\ (forall (p : ptr) (op : string),
        (exists l r, Sample.heap_shared !! p = Some (Combined op l r))
        <-> (exists l r,
               <[0%nat := Combined "AND" (Some 3%nat) (Some 4%nat)]> Sample.heap_shared !! p
               = Some (Combined op l r))).
Proof.
  assert (H : Sample.getTime 3 Sample.heap_shared (Some 0%nat) true
              = Done (<[0%nat := Combined "AND" (Some 3%nat) (Some 4%nat)]>
                        Sample.heap_shared,
                      (Some 0%nat, time_of_nanoseconds 1000000000, None)))
    by (vm_compute; reflexivity).
  split; [exact H|].
  exact (getTime_keeps_nodes Sample.FindStringSubmatch Sample.Parse
           Sample.durations Sample.now _ _ _ _ _ _ H).
Defined.

Lemma getTime_condition_allocated_witness :
  Sample.getTime 3 Sample.heap_shared (Some 0%nat) false
  = Done (<[0%nat := Combined "AND" (Some 2%nat) (Some 4%nat)]> Sample.heap_shared,
          (Some 0%nat, time_of_nanoseconds 5000000000, None))
  /\ is_Some (<[0%nat := Combined "AND" (Some 2%nat) (Some 4%nat)]> Sample.heap_shared
              !! 0%nat)
  /\ @None error = None.
Proof.
  assert (H : Sample.getTime 3 Sample.heap_shared (Some 0%nat) false
              = Done (<[0%nat := Combined "AND" (Some 2%nat) (Some 4%nat)]>
                        Sample.heap_shared,
                      (Some 0%nat, time_of_nanoseconds 5000000000, None)))
    by (vm_compute; reflexivity).
  split; [exact H|].
  exact (getTime_condition_allocated Sample.FindStringSubmatch Sample.Parse
           Sample.durations Sample.now _ _ _ _ _ _ _ _ H).
Defined.

Lemma getTime_time_UTC_witness :
  Sample.getTime 2 Sample.heap_and_start (Some 0%nat) true
  = Done (Sample.heap_and_start, (None, time_of_nanoseconds 500000000, None))
  /\ (time_of_nanoseconds 500000000 = ZERO_TIME
      \/ (time_of_nanoseconds 500000000 <> ZERO_TIME
          /\ loc (time_of_nanoseconds 500000000) = UTC
          /\ 0 <= nsec (time_of_nanoseconds 500000000) < 1000000000)).
Proof.
  assert (H : Sample.getTime 2 Sample.heap_and_start (Some 0%nat) true
              = Done (Sample.heap_and_start,
                      (None, time_of_nanoseconds 500000000, None)))
    by (vm_compute; reflexivity).
  split; [exact H|].
  exact (getTime_time_UTC Sample.FindStringSubmatch Sample.Parse
           Sample.durations Sample.now _ _ _ _ _ _ _ _ H).
Defined.

(** ** Comparison leaves *)

Section TimeBoundLeaves.

Variable time_regex_FindStringSubmatch : string -> list string.
Variable time_Parse : string -> string -> Time * option error.
Variable ParseTimeDuration : string -> Z * option error.
Variable time_Now_UnixNano : Z.

Abbreviation parseTime :=
  (parseTime time_regex_FindStringSubmatch time_Parse ParseTimeDuration
             time_Now_UnixNano).
Abbreviation getTime_expression :=
  (getTime_expression time_regex_FindStringSubmatch time_Parse
                      ParseTimeDuration time_Now_UnixNano).
Abbreviation getTime :=
  (getTime time_regex_FindStringSubmatch time_Parse ParseTimeDuration
           time_Now_UnixNano).

(** What lines 412-436 do with the time expression [t] of a leaf at [c]
    once the side of [time] is known: [lower] tells whether the leaf
    bounds the time from below. *)
Lemma getTime_expression_time_left (c : ptr) (op : string) (t : Value)
    (b : bool) :
  time_operand t = true ->
  getTime_expression c (time_comparison op t) b
  = if String.eqb op ">" then
      if b then
        exec_bind (parseTime t) (fun r =>
          if r.2 is Some _ then Done (None, ZERO_TIME, r.2)
          else Done (None, time_of_nanoseconds r.1, None))
      else Done (Some c, ZERO_TIME, None)
    else if String.eqb op "<" then
      if b then Done (Some c, ZERO_TIME, None)
      else
        exec_bind (parseTime t) (fun r =>
          if r.2 is Some _ then Done (None, ZERO_TIME, r.2)
          else Done (None, time_of_nanoseconds r.1, None))
    else if String.eqb op "=" then
      exec_bind (parseTime t) (fun r =>
        if r.2 is Some _ then Done (None, ZERO_TIME, r.2)
        else Done (Some c, time_of_nanoseconds (int64 (r.1 * 1000)), None))
    else Done (None, ZERO_TIME, Some (InvalidTimeOperator op)).
Proof.
  intros Hop.
  unfold getTime_expression, time_comparison, Expression, time_operand,
    isNumericValue in *.
  cbn [Type_ Elems Name SimpleName].
  destruct (Type_ t) eqn:Ht; vm_compute in Hop; try discriminate Hop; clear Hop;
    repeat (case_bool_decide; try congruence); cbn;
    destruct (String.eqb op ">"), (String.eqb op "<"), (String.eqb op "="), b;
    cbn; try reflexivity;
    destruct (parseTime t) as [[n [e|]]| |]; reflexivity.
Qed.

Lemma getTime_expression_time_right (c : ptr) (op : string) (t : Value)
    (b : bool) :
  time_operand t = true ->
  getTime_expression c (Expression op t (SimpleName "time")) b
  = if String.eqb op ">" then
      if b then Done (Some c, ZERO_TIME, None)
      else
        exec_bind (parseTime t) (fun r =>
          if r.2 is Some _ then Done (None, ZERO_TIME, r.2)
          else Done (None, time_of_nanoseconds r.1, None))
    else if String.eqb op "<" then
      if b then
        exec_bind (parseTime t) (fun r =>
          if r.2 is Some _ then Done (None, ZERO_TIME, r.2)
          else Done (None, time_of_nanoseconds r.1, None))
      else Done (Some c, ZERO_TIME, None)
    else if String.eqb op "=" then
      exec_bind (parseTime t) (fun r =>
        if r.2 is Some _ then Done (None, ZERO_TIME, r.2)
        else Done (Some c, time_of_nanoseconds (int64 (r.1 * 1000)), None))
    else Done (None, ZERO_TIME, Some (InvalidTimeOperator op)).
Proof.
  intros Hop.
  unfold getTime_expression, time_comparison, Expression, time_operand,
    isNumericValue in *.
  cbn [Type_ Elems Name SimpleName].
  destruct (Type_ t) eqn:Ht; vm_compute in Hop; try discriminate Hop; clear Hop;
    repeat (case_bool_decide; try congruence); cbn;
    destruct (String.eqb op ">"), (String.eqb op "<"), (String.eqb op "="), b;
    cbn; try reflexivity;
    destruct (parseTime t) as [[n [e|]]| |]; reflexivity.
Qed.

(** X6: a leaf [time OP t] with [OP] one of [>] and [<] and [t] a literal,
    an expression such as [now() - 1h] or a function call that evaluates
    to [n] nanoseconds is a lower bound for [>] and an upper bound for
    [<]: the extraction of the start time consumes the lower bound, the
    extraction of the end time the upper bound, and each leaves the other
    leaf in the condition with [ZERO_TIME]. *)
Theorem getTime_time_bound (fuel : nat) (h : heap) (c : ptr) (op : string)
    (t : Value) (n : Z) (isParsingStartTime : bool) :
  h !! c = Some (BoolExpression (time_comparison op t)) ->
  op = ">"%string \/ op = "<"%string ->
  time_operand t = true ->
  parseTime t = Done (n, None) ->
  getTime (S fuel) h (Some c) isParsingStartTime
  = if Bool.eqb isParsingStartTime (String.eqb op ">")
    then Done (h, (None, time_of_nanoseconds n, None))
    else Done (h, (Some c, ZERO_TIME, None)).
Proof.
  intros Hc Hop Ht Hparse. rewrite (getTime_leaf _ _ _ _ _ _ _ _ _ Hc).
  rewrite getTime_expression_time_left by exact Ht.
  destruct Hop as [-> | ->], isParsingStartTime; cbn; rewrite ?Hparse;
    reflexivity.
Qed.

(** X7: with [time] as the right operand the comparison is read from
    right to left: [t < time] is the lower bound and [t > time] the upper
    bound. *)
Theorem getTime_time_on_right (fuel : nat) (h : heap) (c : ptr) (op : string)
    (t : Value) (n : Z) (isParsingStartTime : bool) :
  h !! c = Some (BoolExpression (Expression op t (SimpleName "time"))) ->
  op = ">"%string \/ op = "<"%string ->
  time_operand t = true ->
  parseTime t = Done (n, None) ->
  getTime (S fuel) h (Some c) isParsingStartTime
  = if Bool.eqb isParsingStartTime (String.eqb op "<")
    then Done (h, (None, time_of_nanoseconds n, None))
    else Done (h, (Some c, ZERO_TIME, None)).
Proof.
  intros Hc Hop Ht Hparse. rewrite (getTime_leaf _ _ _ _ _ _ _ _ _ Hc).
  rewrite getTime_expression_time_right by exact Ht.
  destruct Hop as [-> | ->], isParsingStartTime; cbn; rewrite ?Hparse;
    reflexivity.
Qed.

(** X8: a comparison of [time] by an operator other than [>], [<] and [=]
    is refused in both modes, on either side of the operator, and before
    the other operand is evaluated (lines 427-428). *)
Theorem getTime_invalid_time_operator (fuel : nat) (h : heap) (c : ptr)
    (op : string) (t : Value) (expr : Value) (isParsingStartTime : bool) :
  h !! c = Some (BoolExpression expr) ->
  expr = time_comparison op t \/ expr = Expression op t (SimpleName "time") ->
  time_operand t = true ->
  op <> ">"%string -> op <> "<"%string -> op <> "="%string ->
  getTime (S fuel) h (Some c) isParsingStartTime
  = Done (h, (None, ZERO_TIME, Some (InvalidTimeOperator op))).
Proof.
  intros Hc Hexpr Ht Hgt Hlt Heq. rewrite (getTime_leaf _ _ _ _ _ _ _ _ _ Hc).
  apply String.eqb_neq in Hgt, Hlt, Heq.
  destruct Hexpr as [-> | ->].
  - rewrite getTime_expression_time_left by exact Ht.
    rewrite Hgt, Hlt, Heq. reflexivity.
  - rewrite getTime_expression_time_right by exact Ht.
    rewrite Hgt, Hlt, Heq. reflexivity.
Qed.

(** X9: when the operand of [time OP t] does not evaluate, the error of
    [parseTime] is returned by the extraction that uses the leaf, and by
    that one only: [time > t] fails in the extraction of the start time
    and is left alone, without error, in the extraction of the end time;
    [time = t] fails in both. *)
Theorem getTime_operand_error (fuel : nat) (h : heap) (c : ptr) (op : string)
    (t : Value) (n : Z) (e : error) (isParsingStartTime : bool) :
  h !! c = Some (BoolExpression (time_comparison op t)) ->
  op = ">"%string \/ op = "<"%string \/ op = "="%string ->
  time_operand t = true ->
  parseTime t = Done (n, Some e) ->
  getTime (S fuel) h (Some c) isParsingStartTime
  = if String.eqb op "=" || Bool.eqb isParsingStartTime (String.eqb op ">")
    then Done (h, (None, ZERO_TIME, Some e))
    else Done (h, (Some c, ZERO_TIME, None)).
Proof.
  intros Hc Hop Ht Hparse. rewrite (getTime_leaf _ _ _ _ _ _ _ _ _ Hc).
  rewrite getTime_expression_time_left by exact Ht.
  destruct Hop as [-> | [-> | ->]], isParsingStartTime; cbn; rewrite ?Hparse;
    reflexivity.
Qed.

(** X10: a comparison neither operand of which is named [time] is no time
    clause: whatever its operator and its operands, it stays in the
    condition, with [ZERO_TIME] and without error, and nothing is
    evaluated. *)
Theorem getTime_no_time_operand (fuel : nat) (h : heap) (c : ptr)
    (expr leftValue rightValue : Value) (rest : list Value)
    (isParsingStartTime : bool) :
  h !! c = Some (BoolExpression expr) ->
  Type_ expr = ValueExpression ->
  Elems expr = leftValue :: rightValue :: rest ->
  Name leftValue <> "time"%string ->
  Name rightValue <> "time"%string ->
  getTime (S fuel) h (Some c) isParsingStartTime
  = Done (h, (Some c, ZERO_TIME, None)).
Proof.
  intros Hc Hty Helems Hl Hr. rewrite (getTime_leaf _ _ _ _ _ _ _ _ _ Hc).
  apply String.eqb_neq in Hl, Hr.
  unfold getTime_expression. rewrite Hty, Helems, Hl, Hr.
  rewrite (bool_decide_eq_false_2 (ValueExpression = ValueFunctionCall))
    by discriminate.
  cbn [negb].
  destruct (bool_decide (Type_ leftValue <> ValueExpression)
            && bool_decide (Type_ leftValue <> ValueFunctionCall)),
    (bool_decide (Type_ rightValue <> ValueExpression)
     && bool_decide (Type_ rightValue <> ValueFunctionCall)),
    (isNumericValue rightValue); reflexivity.
Qed.

(** X11: the side of [time] is decided by the kind of the right operand
    (lines 381-387): when both operands are plain values and the right
    one is no literal, the right one is taken for [time].  So [time OP x]
    with [x] a column name is no time clause, for any operator: it stays
    in the condition without error. *)
Theorem getTime_time_against_name (fuel : nat) (h : heap) (c : ptr)
    (op : string) (x : Value) (isParsingStartTime : bool) :
  h !! c = Some (BoolExpression (time_comparison op x)) ->
  time_operand x = false ->
  Name x <> "time"%string ->
  getTime (S fuel) h (Some c) isParsingStartTime
  = Done (h, (Some c, ZERO_TIME, None)).
Proof.
  intros Hc Hx Hname. rewrite (getTime_leaf _ _ _ _ _ _ _ _ _ Hc).
  apply String.eqb_neq in Hname.
  unfold getTime_expression, time_comparison, Expression, time_operand,
    isNumericValue in *.
  cbn [Type_ Elems Name SimpleName]. rewrite Hname.
  destruct (Type_ x) eqn:Hty; vm_compute in Hx; try discriminate Hx; clear Hx;
    repeat (case_bool_decide; try congruence); reflexivity.
Qed.

(** ** Interior nodes *)

(** X12: under an interior node with an operation other than [OR], a time
    clause on the left that the extraction uses is cut out: the node is
    replaced by what the extraction leaves of its right child, and the
    time of the clause is returned, provided the right child gives no
    time of its own. *)
Theorem getTime_strips_time_clause (fuel : nat) (h : heap) (c l : ptr)
    (operation : string) (r : option ptr) (op : string) (t : Value) (n : Z)
    (isParsingStartTime : bool) (h2 : heap) (newRight : option ptr) :
  h !! c = Some (Combined operation (Some l) r) ->
  operation <> "OR"%string ->
  h !! l = Some (BoolExpression (time_comparison op t)) ->
  (isParsingStartTime = true /\ op = ">"%string)
  \/ (isParsingStartTime = false /\ op = "<"%string) ->
  time_operand t = true ->
  parseTime t = Done (n, None) ->
  getTime (S fuel) h r isParsingStartTime
  = Done (h2, (newRight, ZERO_TIME, None)) ->
  getTime (S (S fuel)) h (Some c) isParsingStartTime
  = Done (h2, (newRight, time_of_nanoseconds n, None)).
Proof.
  intros Hc Hor Hl Hmode Ht Hparse Hr.
  assert (Hleft : getTime (S fuel) h (Some l) isParsingStartTime
                  = Done (h, (None, time_of_nanoseconds n, None))).
  { rewrite (getTime_leaf _ _ _ _ _ _ _ _ _ Hl).
    rewrite getTime_expression_time_left by exact Ht.
    destruct Hmode as [[-> ->]|[-> ->]]; cbn; rewrite Hparse; reflexivity. }
  destruct (getTime_keeps_operation _ _ _ _ _ _ _ _ _ _ _ _ _ _ Hr Hc)
    as (l2 & r2 & Hc2).
  rewrite (getTime_node _ _ _ _ _ _ _ _ _ _ _ _ _ _ _ _ _ _ _ _ _ _ _
             Hc Hleft Hc Hr Hc2).
  apply String.eqb_neq in Hor. rewrite Hor. cbn [andb fst snd].
  rewrite (bool_decide_eq_false_2 (time_of_nanoseconds n = ZERO_TIME))
    by apply time_of_nanoseconds_not_ZERO_TIME.
  rewrite (bool_decide_eq_true_2 (ZERO_TIME = ZERO_TIME)) by reflexivity.
  reflexivity.
Qed.

(** X13: the range [time > t1 AND time < t2] is consumed by the two
    extractions one after the other: the extraction of the start time
    returns the time of [t1] and the upper-bound leaf as the condition,
    the extraction of the end time over that condition returns the time
    of [t2] and no condition; the heap is not written. *)
Theorem getTime_range (fuel : nat) (h : heap) (c l r : ptr)
    (operation : string) (t1 t2 : Value) (n1 n2 : Z) :
  h !! c = Some (Combined operation (Some l) (Some r)) ->
  operation <> "OR"%string ->
  h !! l = Some (BoolExpression (time_comparison ">" t1)) ->
  h !! r = Some (BoolExpression (time_comparison "<" t2)) ->
  time_operand t1 = true ->
  time_operand t2 = true ->
  parseTime t1 = Done (n1, None) ->
  parseTime t2 = Done (n2, None) ->
  getTime (S (S fuel)) h (Some c) true
  = Done (h, (Some r, time_of_nanoseconds n1, None))
  /\ getTime (S fuel) h (Some r) false
     = Done (h, (None, time_of_nanoseconds n2, None)).
Proof.
  intros Hc Hor Hl Hr Ht1 Ht2 Hp1 Hp2.
  assert (Hleft : getTime (S fuel) h (Some l) true
                  = Done (h, (None, time_of_nanoseconds n1, None))).
  { rewrite (getTime_leaf _ _ _ _ _ _ _ _ _ Hl).
    rewrite getTime_expression_time_left by exact Ht1.
    cbn. rewrite Hp1. reflexivity. }
  assert (Hright : getTime (S fuel) h (Some r) true
                   = Done (h, (Some r, ZERO_TIME, None))).
  { rewrite (getTime_leaf _ _ _ _ _ _ _ _ _ Hr).
    rewrite getTime_expression_time_left by exact Ht2. reflexivity. }
  split.
  - rewrite (getTime_node _ _ _ _ _ _ _ _ _ _ _ _ _ _ _ _ _ _ _ _ _ _ _
               Hc Hleft Hc Hright Hc).
    apply String.eqb_neq in Hor. rewrite Hor. cbn [andb fst snd].
    rewrite (bool_decide_eq_false_2 (time_of_nanoseconds n1 = ZERO_TIME))
      by apply time_of_nanoseconds_not_ZERO_TIME.
    rewrite (bool_decide_eq_true_2 (ZERO_TIME = ZERO_TIME)) by reflexivity.
    reflexivity.
  - rewrite (getTime_leaf _ _ _ _ _ _ _ _ _ Hr).
    rewrite getTime_expression_time_left by exact Ht2.
    cbn. rewrite Hp2. reflexivity.
Qed.

(** X14: no time is ever extracted from under an [OR]: whenever the call
    on an [OR] node returns without error, its time is [ZERO_TIME]. *)
Theorem getTime_OR_no_time (fuel : nat) (h : heap) (c : ptr)
    (l r : option ptr) (isParsingStartTime : bool) (h' : heap)
    (newCondition : option ptr) (T : Time) :
  h !! c = Some (Combined "OR" l r) ->
  getTime fuel h (Some c) isParsingStartTime = Done (h', (newCondition, T, None)) ->
  T = ZERO_TIME.
Proof.
  intros Hc H. destruct fuel as [|fuel]; [discriminate H|].
  getTime_step_in H. unfold load in H. rewrite Hc in H. cbn [exec_bind] in H.
  destruct (getTime fuel h l isParsingStartTime) as [[h1 [[nl tl] el]]| |] eqn:Hl;
    [|discriminate H..].
  cbn [exec_bind] in H. destruct el; [discriminate H|].
  destruct (getTime_keeps_operation _ _ _ _ _ _ _ _ _ _ _ _ _ _ Hl Hc)
    as (l1 & r1 & Hc1).
  rewrite Hc1 in H. cbn [exec_bind] in H.
  destruct (getTime fuel h1 r1 isParsingStartTime) as [[h2 [[nr tr] er]]| |] eqn:Hr;
    [|discriminate H..].
  cbn [exec_bind] in H. destruct er; [discriminate H|].
  destruct (getTime_keeps_operation _ _ _ _ _ _ _ _ _ _ _ _ _ _ Hr Hc1)
    as (l2 & r2 & Hc2).
  rewrite Hc2 in H. cbn [exec_bind] in H.
  cbn [String.eqb Ascii.eqb Bool.eqb andb] in H.
  destruct (decide (tl = ZERO_TIME)) as [El|Nl];
    [|rewrite (bool_decide_eq_true_2 (tl <> ZERO_TIME)) in H by exact Nl;
      discriminate H].
  destruct (decide (tr = ZERO_TIME)) as [Er|Nr];
    [|rewrite (bool_decide_eq_true_2 (tr <> ZERO_TIME)) in H by exact Nr;
      rewrite orb_true_r in H; discriminate H].
  subst tl tr.
  rewrite (bool_decide_eq_false_2 (ZERO_TIME <> ZERO_TIME)) in H
    by (intros K; apply K; reflexivity).
  cbn [orb] in H.
  rewrite (bool_decide_eq_true_2 (ZERO_TIME = ZERO_TIME)) in H by reflexivity.
  destruct nl, nr; cbn in H; simplify_eq; reflexivity.
Qed.

End TimeBoundLeaves.

(** Witness: [time < now() - 1s], extracting the end time. *)
Lemma getTime_time_bound_witness :
  Trees.heap_before !! 0%nat
  = Some (BoolExpression (time_comparison "<" Trees.a_second_ago))
  /\ ("<"%string = ">"%string \/ "<"%string = "<"%string)
  /\ time_operand Trees.a_second_ago = true
  /\ Sample.parseTime Trees.a_second_ago = Done (1257893999000000000, None)
  /\ Sample.getTime 1 Trees.heap_before (Some 0%nat) false
     = Done (Trees.heap_before,
             (None, time_of_nanoseconds 1257893999000000000, None)).
Proof.
  split; [reflexivity|]. split; [right; reflexivity|].
  split; [reflexivity|]. split; [vm_compute; reflexivity|].
  apply (getTime_time_bound Sample.FindStringSubmatch Sample.Parse
           Sample.durations Sample.now 0 Trees.heap_before 0%nat "<"
           Trees.a_second_ago 1257893999000000000 false);
    [reflexivity | right; reflexivity | reflexivity | vm_compute; reflexivity].
Defined.

(** Witness: [1s < time], extracting the start time. *)
Lemma getTime_time_on_right_witness :
  Trees.heap_time_on_right !! 0%nat
  = Some (BoolExpression
            (Expression "<" (Sample.duration "1s") (SimpleName "time")))
  /\ ("<"%string = ">"%string \/ "<"%string = "<"%string)
  /\ time_operand (Sample.duration "1s") = true
  /\ Sample.parseTime (Sample.duration "1s") = Done (1000000000, None)
  /\ Sample.getTime 1 Trees.heap_time_on_right (Some 0%nat) true
     = Done (Trees.heap_time_on_right,
             (None, time_of_nanoseconds 1000000000, None)).
Proof.
  split; [reflexivity|]. split; [right; reflexivity|].
  split; [reflexivity|]. split; [reflexivity|].
  apply (getTime_time_on_right Sample.FindStringSubmatch Sample.Parse
           Sample.durations Sample.now 0 Trees.heap_time_on_right 0%nat "<"
           (Sample.duration "1s") 1000000000 true);
    [reflexivity | right; reflexivity | reflexivity | reflexivity].
Defined.

(** Witness: [time <> 1s]. *)
Lemma getTime_invalid_time_operator_witness :
  Trees.heap_time_differs !! 0%nat
  = Some (BoolExpression (time_comparison "<>" (Sample.duration "1s")))
  /\ time_operand (Sample.duration "1s") = true
  /\ "<>"%string <> ">"%string /\ "<>"%string <> "<"%string
  /\ "<>"%string <> "="%string
  /\ Sample.getTime 1 Trees.heap_time_differs (Some 0%nat) true
     = Done (Trees.heap_time_differs,
             (None, ZERO_TIME, Some (InvalidTimeOperator "<>"))).
Proof.
  split; [reflexivity|]. split; [reflexivity|].
  split; [discriminate|]. split; [discriminate|]. split; [discriminate|].
  apply (getTime_invalid_time_operator Sample.FindStringSubmatch Sample.Parse
           Sample.durations Sample.now 0 Trees.heap_time_differs 0%nat "<>"
           (Sample.duration "1s")
           (time_comparison "<>" (Sample.duration "1s")) true);
    [reflexivity | left; reflexivity | reflexivity
     | discriminate | discriminate | discriminate].
Defined.

(** Witness: [time > 'garbage'], extracting the start time. *)
Lemma getTime_operand_error_witness :
  Trees.heap_time_garbage !! 0%nat
  = Some (BoolExpression (time_comparison ">" (Literal ValueString "garbage")))
  /\ (">"%string = ">"%string \/ ">"%string = "<"%string \/ ">"%string = "="%string)
  /\ time_operand (Literal ValueString "garbage") = true
  /\ Sample.parseTime (Literal ValueString "garbage")
     = Done (0, Some (InvalidTimeString "garbage"))
  /\ Sample.getTime 1 Trees.heap_time_garbage (Some 0%nat) true
     = Done (Trees.heap_time_garbage,
             (None, ZERO_TIME, Some (InvalidTimeString "garbage"))).
Proof.
  split; [reflexivity|]. split; [left; reflexivity|].
  split; [reflexivity|]. split; [vm_compute; reflexivity|].
  apply (getTime_operand_error Sample.FindStringSubmatch Sample.Parse
           Sample.durations Sample.now 0 Trees.heap_time_garbage 0%nat ">"
           (Literal ValueString "garbage") 0 (InvalidTimeString "garbage") true);
    [reflexivity | left; reflexivity | reflexivity | vm_compute; reflexivity].
Defined.

(** Witness: [x.host = 'srv1']. *)
Lemma getTime_no_time_operand_witness :
  Sample.heap_join !! 0%nat
  = Some (BoolExpression
            (Expression "=" (SimpleName "x.host") (Literal ValueString "srv1")))
  /\ Type_ (Expression "=" (SimpleName "x.host") (Literal ValueString "srv1"))
     = ValueExpression
  /\ Elems (Expression "=" (SimpleName "x.host") (Literal ValueString "srv1"))
     = [SimpleName "x.host"; Literal ValueString "srv1"]
  /\ Name (SimpleName "x.host") <> "time"%string
  /\ Name (Literal ValueString "srv1") <> "time"%string
  /\ Sample.getTime 1 Sample.heap_join (Some 0%nat) true
     = Done (Sample.heap_join, (Some 0%nat, ZERO_TIME, None)).
Proof.
  split; [reflexivity|]. split; [reflexivity|]. split; [reflexivity|].
  split; [discriminate|]. split; [discriminate|].
  apply (getTime_no_time_operand Sample.FindStringSubmatch Sample.Parse
           Sample.durations Sample.now 0 Sample.heap_join 0%nat
           (Expression "=" (SimpleName "x.host") (Literal ValueString "srv1"))
           (SimpleName "x.host") (Literal ValueString "srv1") [] true);
    [reflexivity | reflexivity | reflexivity | discriminate | discriminate].
Defined.

(** Witness: [time > x]. *)
Lemma getTime_time_against_name_witness :
  Trees.heap_time_column !! 0%nat
  = Some (BoolExpression (time_comparison ">" (SimpleName "x")))
  /\ time_operand (SimpleName "x") = false
  /\ Name (SimpleName "x") <> "time"%string
  /\ Sample.getTime 1 Trees.heap_time_column (Some 0%nat) true
     = Done (Trees.heap_time_column, (Some 0%nat, ZERO_TIME, None)).
Proof.
  split; [reflexivity|]. split; [reflexivity|]. split; [discriminate|].
  apply (getTime_time_against_name Sample.FindStringSubmatch Sample.Parse
           Sample.durations Sample.now 0 Trees.heap_time_column 0%nat ">"
           (SimpleName "x") true);
    [reflexivity | reflexivity | discriminate].
Defined.

(** Witness: [time > 1s AND b = 'x'], extracting the start time. *)
Lemma getTime_strips_time_clause_witness :
  Trees.heap_clause !! 0%nat = Some (Combined "AND" (Some 1%nat) (Some 2%nat))
  /\ "AND"%string <> "OR"%string
  /\ Trees.heap_clause !! 1%nat
     = Some (BoolExpression (time_comparison ">" (Sample.duration "1s")))
  /\ time_operand (Sample.duration "1s") = true
  /\ Sample.parseTime (Sample.duration "1s") = Done (1000000000, None)
  /\ Sample.getTime 1 Trees.heap_clause (Some 2%nat) true
     = Done (Trees.heap_clause, (Some 2%nat, ZERO_TIME, None))
  /\ Sample.getTime 2 Trees.heap_clause (Some 0%nat) true
     = Done (Trees.heap_clause,
             (Some 2%nat, time_of_nanoseconds 1000000000, None)).
Proof.
  split; [reflexivity|]. split; [discriminate|]. split; [reflexivity|].
  split; [reflexivity|]. split; [reflexivity|].
  split; [vm_compute; reflexivity|].
  apply (getTime_strips_time_clause Sample.FindStringSubmatch Sample.Parse
           Sample.durations Sample.now 0 Trees.heap_clause 0%nat 1%nat "AND"
           (Some 2%nat) ">" (Sample.duration "1s") 1000000000 true
           Trees.heap_clause (Some 2%nat));
    [reflexivity | discriminate | reflexivity | left; split; reflexivity
     | reflexivity | reflexivity | vm_compute; reflexivity].
Defined.

(** Witness: [time > 1s AND time < 5s]. *)
Lemma getTime_range_witness :
  Trees.heap_range !! 0%nat = Some (Combined "AND" (Some 1%nat) (Some 2%nat))
  /\ "AND"%string <> "OR"%string
  /\ Trees.heap_range !! 1%nat
     = Some (BoolExpression (time_comparison ">" (Sample.duration "1s")))
  /\ Trees.heap_range !! 2%nat
     = Some (BoolExpression (time_comparison "<" (Sample.duration "5s")))
  /\ Sample.parseTime (Sample.duration "1s") = Done (1000000000, None)
  /\ Sample.parseTime (Sample.duration "5s") = Done (5000000000, None)
  /\ Sample.getTime 2 Trees.heap_range (Some 0%nat) true
     = Done (Trees.heap_range, (Some 2%nat, time_of_nanoseconds 1000000000, None))
  /\ Sample.getTime 1 Trees.heap_range (Some 2%nat) false
     = Done (Trees.heap_range, (None, time_of_nanoseconds 5000000000, None)).
Proof.
  split; [reflexivity|]. split; [discriminate|]. split; [reflexivity|].
  split; [reflexivity|]. split; [reflexivity|]. split; [reflexivity|].
  apply (getTime_range Sample.FindStringSubmatch Sample.Parse
           Sample.durations Sample.now 0 Trees.heap_range 0%nat 1%nat 2%nat "AND"
           (Sample.duration "1s") (Sample.duration "5s") 1000000000 5000000000);
    [reflexivity | discriminate | reflexivity | reflexivity | reflexivity
     | reflexivity | reflexivity | reflexivity].
Defined.

(** Witness: [a = 'x' OR b = 'y']. *)
Lemma getTime_OR_no_time_witness :
  Trees.heap_or_columns !! 0%nat = Some (Combined "OR" (Some 1%nat) (Some 2%nat))
  /\ Sample.getTime 2 Trees.heap_or_columns (Some 0%nat) true
     = Done (Trees.heap_or_columns, (Some 0%nat, ZERO_TIME, None))
  /\ ZERO_TIME = ZERO_TIME.
Proof.
  assert (H : Sample.getTime 2 Trees.heap_or_columns (Some 0%nat) true
              = Done (Trees.heap_or_columns, (Some 0%nat, ZERO_TIME, None)))
    by (vm_compute; reflexivity).
  split; [reflexivity|]. split; [exact H|].
  exact (getTime_OR_no_time Sample.FindStringSubmatch Sample.Parse
           Sample.durations Sample.now 2 Trees.heap_or_columns 0%nat
           (Some 1%nat) (Some 2%nat) true Trees.heap_or_columns (Some 0%nat)
           ZERO_TIME eq_refl H).
Defined.

(** ** Time expressions *)

(** One unfolding of the recursion of [parseTime]. *)
Ltac parseTime_step := cbn [parseTime].
Ltac parseTime_step_in H := cbn [parseTime] in H.

Section TimeExpressions.

Variable time_regex_FindStringSubmatch : string -> list string.
Variable time_Parse : string -> string -> Time * option error.
Variable ParseTimeDuration : string -> Z * option error.
Variable time_Now_UnixNano : Z.

Abbreviation parseTimeString :=
  (parseTimeString time_regex_FindStringSubmatch time_Parse).
Abbreviation parseTime :=
  (parseTime time_regex_FindStringSubmatch time_Parse ParseTimeDuration
             time_Now_UnixNano).
Abbreviation getTime_expression :=
  (getTime_expression time_regex_FindStringSubmatch time_Parse
                      ParseTimeDuration time_Now_UnixNano).
Abbreviation getTime :=
  (getTime time_regex_FindStringSubmatch time_Parse ParseTimeDuration
           time_Now_UnixNano).

(** X15: [parseTime] indexes the operands of an expression without a check
    (lines 247 and 251); on a value every expression node of which has
    its two operands it returns, with a number or with an error, and does
    not panic. *)
Theorem parseTime_returns (value : Value) :
  has_operands value = true ->
  exists (n : Z) (err : option error), parseTime value = Done (n, err).
Proof.
  induction value as [name type elems regex IH] using Value_nested_ind.
  cbn [has_operands]. parseTime_step. case_bool_decide as Hty.
  - intros _. repeat case_match; eauto.
    destruct (ParseTimeDuration name) as [n e]. eauto.
  - destruct elems as [|e0 [|e1 rest]]; try discriminate.
    intros H. apply andb_true_iff in H as [H0 H1].
    apply Forall_cons in IH as [P0 IH]. apply Forall_cons in IH as [P1 _].
    destruct (P0 H0) as (a & ea & E0). destruct (P1 H1) as (b & eb & E1).
    rewrite E0. cbn. destruct ea; eauto. rewrite E1. cbn. destruct eb; eauto.
    repeat case_match; eauto.
Qed.

End TimeExpressions.

(** Witness: [now() - 1s]. *)
Lemma parseTime_returns_witness :
  has_operands Trees.a_second_ago = true
  /\ exists (n : Z) (err : option error),
       Sample.parseTime Trees.a_second_ago = Done (n, err).
Proof.
  split; [reflexivity|].
  apply (parseTime_returns Sample.FindStringSubmatch Sample.Parse
           Sample.durations Sample.now Trees.a_second_ago).
  reflexivity.
Defined.

(** ** The errors of the extractor *)

Section LibraryErrors.

Variable time_regex_FindStringSubmatch : string -> list string.
Variable time_Parse : string -> string -> Time * option error.
Variable ParseTimeDuration : string -> Z * option error.
Variable time_Now_UnixNano : Z.

(** The libraries do not produce the errors of this file. *)
Hypothesis time_Parse_error : forall (layout t : string) (p : ptr),
  (time_Parse layout t).2 <> Some (InvalidTimeCondition p).
Hypothesis ParseTimeDuration_error : forall (t : string) (p : ptr),
  (ParseTimeDuration t).2 <> Some (InvalidTimeCondition p).

Abbreviation parseTimeString :=
  (parseTimeString time_regex_FindStringSubmatch time_Parse).
Abbreviation parseTime :=
  (parseTime time_regex_FindStringSubmatch time_Parse ParseTimeDuration
             time_Now_UnixNano).
Abbreviation getTime_expression :=
  (getTime_expression time_regex_FindStringSubmatch time_Parse
                      ParseTimeDuration time_Now_UnixNano).
Abbreviation getTime :=
  (getTime time_regex_FindStringSubmatch time_Parse ParseTimeDuration
           time_Now_UnixNano).

Lemma parseTimeString_error (t : string) (p : ptr) :
  (parseTimeString t).2 <> Some (InvalidTimeCondition p).
Proof.
  unfold parseTimeString.
  repeat case_match; try apply time_Parse_error. discriminate.
Qed.

Lemma parseTime_error (value : Value) :
  forall (n : Z) (e : error) (p : ptr),
    parseTime value = Done (n, Some e) -> e <> InvalidTimeCondition p.
Proof.
  induction value as [name type elems regex IH] using Value_nested_ind.
  intros n e p. parseTime_step. case_bool_decide as Hty.
  - destruct (IsFunctionCall _ && _); [discriminate|].
    destruct (IsFunctionCall _); [intros [= _ <-]; discriminate|].
    case_bool_decide.
    + pose proof (parseTimeString_error name p) as K.
      destruct (parseTimeString name) as [t err]. intros [= _ ->].
      intros ->. apply K. reflexivity.
    + pose proof (ParseTimeDuration_error name p) as K.
      destruct (ParseTimeDuration name) as [d err]. intros [= _ ->].
      intros ->. apply K. reflexivity.
  - destruct elems as [|e0 elems]; [discriminate|].
    apply Forall_cons in IH as [P0 IH].
    destruct (parseTime e0) as [[a [ea|]]| |] eqn:E0; cbn; try discriminate.
    { intros [= _ <-]. eapply P0. reflexivity. }
    destruct elems as [|e1 elems]; [discriminate|].
    apply Forall_cons in IH as [P1 _].
    destruct (parseTime e1) as [[b [eb|]]| |] eqn:E1; cbn; try discriminate.
    { intros [= _ <-]. eapply P1. reflexivity. }
    repeat case_match; intros [= _ <-]; discriminate.
Qed.

Lemma getTime_expression_error (c : ptr) (expr : Value) (b : bool)
    (newCondition : option ptr) (T : Time) (e : error) (p : ptr) :
  getTime_expression c expr b = Done (newCondition, T, Some e) ->
  e <> InvalidTimeCondition p.
Proof.
  unfold getTime_expression. intros H.
  cbv zeta in H. unfold exec_bind in H.
  repeat (case_match; simplify_eq/=);
    try discriminate; try (eapply parseTime_error; eassumption).
  all: repeat match goal with
             | H : context [bool_decide ?P] |- _ => destruct (bool_decide P)
             end; discriminate.
Qed.

(** X16: the error ["Invalid time condition"] of line 408 is never
    returned: after lines 381-387 the two flags it tests cannot both be
    set.  Every error of [getTime] is one of the other errors of lines
    358-476, or an error of [parseTime]. *)
Theorem getTime_never_InvalidTimeCondition (fuel : nat) :
  forall (h : heap) (c : option ptr) (b : bool) (h' : heap)
         (newCondition : option ptr) (T : Time) (e : error) (p : ptr),
    getTime fuel h c b = Done (h', (newCondition, T, Some e)) ->
    e <> InvalidTimeCondition p.
Proof.
  induction fuel as [|fuel IH]; intros h c b h' nc T e p H; [discriminate H|].
  getTime_step_in H. destruct c as [c|]; [|discriminate H].
  unfold load in H.
  destruct (h !! c) as [[expr|op l rr]|] eqn:Hc; [| |discriminate H].
  - cbn [exec_bind] in H.
    destruct (getTime_expression c expr b) as [[[nc0 T0] e0]| |] eqn:He;
      cbn in H; [|discriminate H..].
    simplify_eq. eapply getTime_expression_error. exact He.
  - cbn [exec_bind] in H.
    destruct (getTime fuel h l b) as [[h1 [[nl tl] el]]| |] eqn:Hl;
      [|discriminate H..].
    cbn [exec_bind] in H.
    destruct el as [el|]; [simplify_eq; eapply IH; exact Hl|].
    destruct (h1 !! c) as [[e1|op1 l1 r1]|] eqn:Hc1;
      [discriminate H| |discriminate H].
    cbn [exec_bind] in H.
    destruct (getTime fuel h1 r1 b) as [[h2 [[nr tr] er]]| |] eqn:Hr;
      [|discriminate H..].
    cbn [exec_bind] in H.
    destruct er as [er|]; [simplify_eq; eapply IH; exact Hr|].
    destruct (h2 !! c) as [[e2|op2 l2 r2]|] eqn:Hc2;
      [discriminate H| |discriminate H].
    cbn [exec_bind] in H.
    destruct (String.eqb op2 "OR"
              && (bool_decide (tl <> ZERO_TIME) || bool_decide (tr <> ZERO_TIME)));
      [simplify_eq; discriminate|].
    destruct nl, nr; cbn in H;
      repeat (match type of H with
              | context [if ?x then _ else _] => destruct x
              end); discriminate H.
Qed.

End LibraryErrors.

(** Witness: [time > 'garbage'], whose error is the one of
    [parseTimeString]. *)
Lemma getTime_never_InvalidTimeCondition_witness :
  (forall (layout t : string) (p : ptr),
      (Sample.Parse layout t).2 <> Some (InvalidTimeCondition p))
  /\ (forall (t : string) (p : ptr),
         (Sample.durations t).2 <> Some (InvalidTimeCondition p))
  /\ Sample.getTime 1 Trees.heap_time_garbage (Some 0%nat) true
     = Done (Trees.heap_time_garbage,
             (None, ZERO_TIME, Some (InvalidTimeString "garbage")))
  /\ InvalidTimeString "garbage" <> InvalidTimeCondition 0%nat.
Proof.
  assert (H1 : forall (layout t : string) (p : ptr),
             (Sample.Parse layout t).2 <> Some (InvalidTimeCondition p))
    by (intros layout t p; discriminate).
  assert (H2 : forall (t : string) (p : ptr),
             (Sample.durations t).2 <> Some (InvalidTimeCondition p))
    by (intros t p; unfold Sample.durations; repeat case_match; discriminate).
  assert (H : Sample.getTime 1 Trees.heap_time_garbage (Some 0%nat) true
              = Done (Trees.heap_time_garbage,
                      (None, ZERO_TIME, Some (InvalidTimeString "garbage"))))
    by (vm_compute; reflexivity).
  split; [exact H1|]. split; [exact H2|]. split; [exact H|].
  exact (getTime_never_InvalidTimeCondition Sample.FindStringSubmatch
           Sample.Parse Sample.durations Sample.now H1 H2 1
           Trees.heap_time_garbage (Some 0%nat) true Trees.heap_time_garbage
           None ZERO_TIME (InvalidTimeString "garbage") 0%nat H).
Defined.

(** * Further properties of the column-reference resolver *)

(** ** Distinct sorted strings *)

Section Uniq.

Context {order : MapRange}.

Lemma uniqueMap_elem (slice : list string) :
  forall (m : gmap string bool) (x : string),
    x ∈ slice \/ is_Some (m !! x) ->
    is_Some (foldl (fun m name => <[name := true]> m) m slice !! x).
Proof.
  induction slice as [|name slice IH]; intros m x H.
  - destruct H as [H|H]; [apply elem_of_nil in H; destruct H|exact H].
  - cbn [foldl]. apply IH. destruct H as [H|H].
    + apply elem_of_cons in H as [->|H]; [right|left; exact H].
      rewrite lookup_insert_eq. eauto.
    + right. destruct (decide (name = x)) as [->|Hne].
      * rewrite lookup_insert_eq. eauto.
      * rewrite lookup_insert_ne by exact Hne. exact H.
Qed.

Lemma uniq_elem_of_iff (slice : list string) (x : string) :
  x ∈ uniq slice <-> x ∈ slice.
Proof.
  split; [apply uniq_elem_of|].
  intros H. unfold uniq. rewrite merge_sort_Permutation, range_of_perm.
  destruct (uniqueMap_elem slice ∅ x (or_introl H)) as [v Hv].
  apply list_elem_of_fmap. exists (x, v). split; [reflexivity|].
  apply elem_of_map_to_list. exact Hv.
Qed.

Lemma uniq_NoDup (slice : list string) : NoDup (uniq slice).
Proof.
  unfold uniq. rewrite merge_sort_Permutation, range_of_perm.
  apply NoDup_fst_map_to_list.
Qed.

Lemma uniq_Sorted (slice : list string) : Sorted String.le (uniq slice).
Proof. unfold uniq. apply Sorted_merge_sort; apply _. Qed.

End Uniq.

Lemma uniq_same_elements (order order' : MapRange) (slice slice' : list string) :
  (forall x : string, x ∈ slice <-> x ∈ slice') ->
  @uniq order slice = @uniq order' slice'.
Proof.
  intros H. apply (Sorted_unique String.le); try apply uniq_Sorted.
  apply NoDup_Permutation; try apply uniq_NoDup.
  intros x. rewrite !uniq_elem_of_iff. apply H.
Qed.

(** X17: [uniq] returns the strings of its argument, each once, in
    ascending byte order, whatever the order in which the map of lines
    21-28 is visited. *)
Theorem uniq_sorted_distinct (order : MapRange) (slice : list string) :
  Sorted String.le (@uniq order slice)
  /\ NoDup (@uniq order slice)
  /\ forall x : string, x ∈ @uniq order slice <-> x ∈ slice.
Proof.
  split; [apply uniq_Sorted|]. split; [apply uniq_NoDup|].
  intros x. apply uniq_elem_of_iff.
Qed.

(** X18: the result of [uniq] depends on the set of the strings only:
    neither the order or the repetitions of the argument nor the order of
    the iteration over the map shows in it; in particular [uniq] of a
    result of [uniq] is that result. *)
Theorem uniq_set (order order' : MapRange) (slice slice' : list string) :
  (forall x : string, x ∈ slice <-> x ∈ slice') ->
  @uniq order slice = @uniq order' slice'
  /\ @uniq order (@uniq order' slice') = @uniq order slice.
Proof.
  intros H. split; [apply uniq_same_elements; exact H|].
  apply uniq_same_elements. intros x. rewrite uniq_elem_of_iff.
  symmetry. apply H.
Qed.

Lemma uniq_set_witness :
  (forall x : string, x ∈ ["b"; "a"; "b"] <-> x ∈ ["a"; "b"])
  /\ @uniq MapRange_canonical ["b"; "a"; "b"] = @uniq MapRange_canonical ["a"; "b"]
  /\ @uniq MapRange_canonical (@uniq MapRange_canonical ["a"; "b"])
     = @uniq MapRange_canonical ["b"; "a"; "b"].
Proof.
  assert (H : forall x : string, x ∈ ["b"; "a"; "b"] <-> x ∈ ["a"; "b"]).
  { intros x. rewrite !elem_of_cons, !elem_of_nil. tauto. }
  split; [exact H|].
  exact (uniq_set MapRange_canonical MapRange_canonical _ _ H).
Defined.

(** ** The columns of a value *)

Lemma slice_at_insert_prefix (mapping : gmap string (list string))
    (table column k : string) :
  slice_at mapping k
  `prefix_of` slice_at (<[table := slice_at mapping table ++ [column]]> mapping) k.
Proof.
  unfold slice_at. destruct (decide (table = k)) as [->|Hne].
  - rewrite lookup_insert_eq. cbn. apply prefix_app_r. reflexivity.
  - rewrite lookup_insert_ne by exact Hne. reflexivity.
Qed.

Lemma collectElems_grows
    (collect : Value -> gmap string (list string)
               -> list string * gmap string (list string))
    (elems : list Value) :
  Forall (fun v => forall mapping k,
              slice_at mapping k `prefix_of` slice_at (collect v mapping).2 k)
         elems ->
  forall (notAssigned : list string) (mapping : gmap string (list string))
         (k : string),
    slice_at mapping k
    `prefix_of` slice_at (collectElems collect elems notAssigned mapping).2 k.
Proof.
  induction 1 as [|value elems Hv _ IH]; intros notAssigned mapping k;
    [reflexivity|].
  cbn [collectElems]. specialize (Hv mapping k).
  destruct (collect value mapping) as [new mapping'] eqn:E. cbn [snd] in Hv.
  etrans; [exact Hv|]. apply IH.
Qed.

(** X19: [getReferencedColumnsFromValue] only appends to the slices of
    [mapping]: the columns recorded for a prefix before the call are an
    initial segment of those recorded after it, and no prefix is
    removed. *)
Theorem getReferencedColumnsFromValue_grows (v : Value) :
  forall (mapping : gmap string (list string)) (k : string),
    slice_at mapping k
    `prefix_of` slice_at (getReferencedColumnsFromValue v mapping).2 k.
Proof.
  induction v as [name type elems regex IH] using Value_nested_ind.
  intros mapping k.
  destruct type; cbn [getReferencedColumnsFromValue snd]; try reflexivity;
    try (apply collectElems_grows; exact IH);
    cbv zeta; case_bool_decide; cbn [snd]; try reflexivity;
    apply slice_at_insert_prefix.
Qed.

Lemma collectElems_no_star
    (collect : Value -> gmap string (list string)
               -> list string * gmap string (list string))
    (elems : list Value) :
  Forall (fun v => forall mapping,
              "*"%string ∉ without_leading_star (collect v mapping).1) elems ->
  forall (notAssigned : list string) (mapping : gmap string (list string)),
    "*"%string ∉ notAssigned ->
    "*"%string ∉ (collectElems collect elems notAssigned mapping).1.
Proof.
  induction 1 as [|value elems Hv _ IH]; intros notAssigned mapping Hacc;
    [exact Hacc|].
  cbn [collectElems]. specialize (Hv mapping).
  destruct (collect value mapping) as [new mapping'] eqn:E. cbn [fst] in Hv.
  apply IH. intros Hin. apply elem_of_app in Hin as [Hin|Hin];
    [exact (Hacc Hin)|exact (Hv Hin)].
Qed.

Lemma without_leading_star_no_star (columns : list string) :
  "*"%string ∉ columns -> "*"%string ∉ without_leading_star columns.
Proof.
  intros H. destruct columns as [|first rest]; [exact H|].
  cbn. destruct (String.eqb first "*"); [|exact H].
  intros Hin. apply H. apply elem_of_cons. right. exact Hin.
Qed.

Lemma getReferencedColumnsFromValue_leading_star (v : Value) :
  forall mapping : gmap string (list string),
    "*"%string ∉ without_leading_star (getReferencedColumnsFromValue v mapping).1.
Proof.
  induction v as [name type elems regex IH] using Value_nested_ind.
  intros mapping.
  assert (Helems :
    "*"%string ∉ (collectElems getReferencedColumnsFromValue elems [] mapping).1).
  { apply collectElems_no_star; [exact IH|]. apply not_elem_of_nil. }
  assert (Hname :
    "*"%string ∉ without_leading_star
      (let idx := strings_LastIndex name "." in
       if bool_decide (idx <> -1) then
         let tableName := slice_to name idx in
         let columnName := slice_from name (idx + 1) in
         ([], <[tableName := slice_at mapping tableName ++ [columnName]]> mapping)
       else ([name], mapping)).1).
  { cbv zeta. case_bool_decide; cbn [fst without_leading_star];
      [apply not_elem_of_nil|].
    destruct (String.eqb name "*") eqn:E; [apply not_elem_of_nil|].
    apply String.eqb_neq in E. intros Hin.
    apply list_elem_of_singleton in Hin. congruence. }
  destruct type; cbn [getReferencedColumnsFromValue];
    try exact Hname;
    try (apply without_leading_star_no_star; exact Helems);
    cbn; apply not_elem_of_nil.
Qed.

(** X20: an expression or a function call never contributes the wildcard
    to the unprefixed columns: the wildcard of [count( * )] is dropped at
    line 281, at any depth. *)
Theorem getReferencedColumnsFromValue_no_wildcard (v : Value)
    (mapping : gmap string (list string)) :
  Type_ v = ValueExpression \/ Type_ v = ValueFunctionCall ->
  "*"%string ∉ (getReferencedColumnsFromValue v mapping).1.
Proof.
  intros Hty. destruct v as [name type elems regex]. cbn [Type_] in Hty.
  assert (Helems :
    "*"%string ∉ (collectElems getReferencedColumnsFromValue elems [] mapping).1).
  { apply collectElems_no_star; [|apply not_elem_of_nil].
    apply Forall_forall. intros e _ m.
    apply getReferencedColumnsFromValue_leading_star. }
  destruct Hty as [-> | ->]; exact Helems.
Qed.

(** Witness: [count( * )]. *)
Lemma getReferencedColumnsFromValue_no_wildcard_witness :
  (Type_ (FunctionCall "count" [Wildcard]) = ValueExpression
   \/ Type_ (FunctionCall "count" [Wildcard]) = ValueFunctionCall)
  /\ "*"%string ∉ (getReferencedColumnsFromValue (FunctionCall "count" [Wildcard]) ∅).1.
Proof.
  split; [right; reflexivity|].
  apply (getReferencedColumnsFromValue_no_wildcard
           (FunctionCall "count" [Wildcard]) ∅).
  right. reflexivity.
Defined.

(** ** Aliases of joined tables *)

Section Aliases.

Context {order : MapRange}.

(** The loop of lines 88-95 over the columns written under one alias. *)
Lemma tableColumns_lookup (name : string) (columnNames : list string) :
  forall (columns : gmap string (gmap string bool)) (n c : string),
    is_Some (default ∅
               (foldl (fun (columns : gmap string (gmap string bool)) column =>
                         let tableColumns := default ∅ (columns !! name) in
                         <[name := <[column := true]> tableColumns]> columns)
                      columns columnNames !! n) !! c)
    <-> is_Some (default ∅ (columns !! n) !! c)
        \/ (n = name /\ c ∈ columnNames).
Proof.
  induction columnNames as [|column columnNames IH]; intros columns n c.
  - cbn [foldl]. rewrite elem_of_nil. tauto.
  - cbn [foldl]. rewrite IH. cbv beta zeta. rewrite elem_of_cons.
    destruct (decide (name = n)) as [->|Hne].
    + rewrite lookup_insert_eq. cbn [from_option id].
      destruct (decide (column = c)) as [->|Hc].
      * rewrite lookup_insert_eq. split; [|eauto]. intros _. right. auto.
      * rewrite lookup_insert_ne by exact Hc. split.
        -- intros [H|[_ H]]; [left; exact H|right; auto].
        -- intros [H|[_ [H|H]]]; [left; exact H|congruence|right; auto].
    + rewrite lookup_insert_ne by exact Hne. split.
      * intros [H|[H _]]; [left; exact H|congruence].
      * intros [H|[H _]]; [left; exact H|congruence].
Qed.

(** The loop of lines 81-98 deletes the aliases and nothing else. *)
Lemma gatherColumns_mapping (names : list TableName) :
  forall (columns : gmap string (gmap string bool))
         (mapping : gmap string (list string)) (k : string),
    (foldl (fun (st : gmap string (gmap string bool) * gmap string (list string)) table =>
              let '(columns, mapping) := st in
              let name := Name (TableName_Name table) in
              let alias :=
                if negb (String.eqb (TableName_Alias table) "")
                then TableName_Alias table else name in
              let columns :=
                foldl (fun (columns : gmap string (gmap string bool)) column =>
                         let tableColumns := default ∅ (columns !! name) in
                         <[name := <[column := true]> tableColumns]> columns)
                      columns (slice_at mapping alias) in
              (columns, delete alias mapping))
           (columns, mapping) names).2 !! k
    = if decide (k ∈ table_alias <$> names) then None else mapping !! k.
Proof.
  induction names as [|table names IH]; intros columns mapping k.
  - cbn [foldl snd fmap list_fmap]. rewrite decide_False by apply not_elem_of_nil.
    reflexivity.
  - cbn [foldl]. rewrite IH. cbn [fmap list_fmap].
    fold (table_alias table).
    destruct (decide (k ∈ table_alias <$> names)) as [Hin|Hnin].
    + rewrite decide_True by (apply elem_of_cons; right; exact Hin).
      reflexivity.
    + destruct (decide (k = table_alias table)) as [->|Hne].
      * rewrite decide_True by (apply elem_of_cons; left; reflexivity).
        apply lookup_delete_eq.
      * rewrite decide_False
          by (intros H; apply elem_of_cons in H as [H|H]; contradiction).
        apply lookup_delete_ne. congruence.
Qed.

(** The sets collected by the loop of lines 81-98, for aliases that are
    pairwise distinct. *)
Lemma gatherColumns_columns (names : list TableName) :
  forall (columns : gmap string (gmap string bool))
         (mapping : gmap string (list string)) (n c : string),
    NoDup (table_alias <$> names) ->
    is_Some (default ∅
      ((foldl (fun (st : gmap string (gmap string bool) * gmap string (list string)) table =>
                 let '(columns, mapping) := st in
                 let name := Name (TableName_Name table) in
                 let alias :=
                   if negb (String.eqb (TableName_Alias table) "")
                   then TableName_Alias table else name in
                 let columns :=
                   foldl (fun (columns : gmap string (gmap string bool)) column =>
                            let tableColumns := default ∅ (columns !! name) in
                            <[name := <[column := true]> tableColumns]> columns)
                         columns (slice_at mapping alias) in
                 (columns, delete alias mapping))
              (columns, mapping) names).1 !! n) !! c)
    <-> is_Some (default ∅ (columns !! n) !! c)
        \/ exists table : TableName,
             table ∈ names /\ Name (TableName_Name table) = n
             /\ c ∈ slice_at mapping (table_alias table).
Proof.
  induction names as [|table names IH]; intros columns mapping n c Hnd.
  - cbn [foldl fst]. split; [auto|].
    intros [H|(t & Ht & _)]; [exact H|]. apply elem_of_nil in Ht. destruct Ht.
  - cbn [fmap list_fmap] in Hnd. apply NoDup_cons in Hnd as [Hfresh Hnd].
    cbn [foldl]. rewrite IH by exact Hnd. fold (table_alias table).
    rewrite tableColumns_lookup.
    assert (Hkeep : forall t : TableName,
               t ∈ names ->
               slice_at (delete (table_alias table) mapping) (table_alias t)
               = slice_at mapping (table_alias t)).
    { intros t Ht. unfold slice_at. rewrite lookup_delete_ne; [reflexivity|].
      intros E. apply Hfresh. rewrite E. apply list_elem_of_fmap. eauto. }
    split.
    + intros [[H|[Hn H]]|(t & Ht & Hn & Hc)].
      * left. exact H.
      * right. exists table. split; [apply elem_of_cons; left; reflexivity|].
        split; [symmetry; exact Hn|exact H].
      * right. exists t. split; [apply elem_of_cons; right; exact Ht|].
        split; [exact Hn|]. rewrite <- Hkeep by exact Ht. exact Hc.
    + intros [H|(t & Ht & Hn & Hc)]; [left; left; exact H|].
      apply elem_of_cons in Ht as [->|Ht].
      * left. right. split; [symmetry; exact Hn|exact Hc].
      * right. exists t. split; [exact Ht|]. split; [exact Hn|].
        rewrite Hkeep by exact Ht. exact Hc.
Qed.

(** A set is collected for the names of the from clause only. *)
Lemma gatherColumns_names (names : list TableName) :
  forall (columns : gmap string (gmap string bool))
         (mapping : gmap string (list string)) (n : string),
    is_Some
      ((foldl (fun (st : gmap string (gmap string bool) * gmap string (list string)) table =>
                 let '(columns, mapping) := st in
                 let name := Name (TableName_Name table) in
                 let alias :=
                   if negb (String.eqb (TableName_Alias table) "")
                   then TableName_Alias table else name in
                 let columns :=
                   foldl (fun (columns : gmap string (gmap string bool)) column =>
                            let tableColumns := default ∅ (columns !! name) in
                            <[name := <[column := true]> tableColumns]> columns)
                         columns (slice_at mapping alias) in
                 (columns, delete alias mapping))
              (columns, mapping) names).1 !! n) ->
    is_Some (columns !! n)
    \/ exists table : TableName,
         table ∈ names /\ Name (TableName_Name table) = n.
Proof.
  induction names as [|table names IH]; intros columns mapping n H.
  - left. exact H.
  - cbn [foldl] in H. apply IH in H as [H|(t & Ht & Hn)].
    + assert (Hinner : forall (l : list string) (cs : gmap string (gmap string bool)),
                 is_Some
                   (foldl (fun (columns : gmap string (gmap string bool)) column =>
                             let tableColumns :=
                               default ∅ (columns !! Name (TableName_Name table)) in
                             <[Name (TableName_Name table)
                               := <[column := true]> tableColumns]> columns)
                          cs l !! n) ->
                 is_Some (cs !! n) \/ Name (TableName_Name table) = n).
      { induction l as [|column l IHl]; intros cs Hs; [left; exact Hs|].
        cbn [foldl] in Hs. apply IHl in Hs as [Hs|Hs]; [|right; exact Hs].
        cbv zeta in Hs.
        destruct (decide (Name (TableName_Name table) = n)) as [E|E];
          [right; exact E|].
        rewrite lookup_insert_ne in Hs by exact E. left. exact Hs. }
      apply Hinner in H as [H|H]; [left; exact H|].
      right. exists table. split; [apply elem_of_cons; left; reflexivity|exact H].
    + right. exists t. split; [apply elem_of_cons; right; exact Ht|exact Hn].
Qed.

(** Storing over a list without repeated keys. *)
Lemma foldl_store_lookup (entries : list (string * gmap string bool)) :
  NoDup entries.*1 ->
  forall (mapping : gmap string (list string)) (k : string),
    (forall s : gmap string bool,
        (k, s) ∈ entries ->
        foldl (fun (mapping : gmap string (list string)) entry =>
                 let '(table, tableColumns) := entry in
                 <[table := (range_of (tableColumns : gmap string bool)).*1]> mapping)
              mapping entries !! k
        = Some (range_of s).*1)
    /\ (k ∉ entries.*1 ->
        foldl (fun (mapping : gmap string (list string)) entry =>
                 let '(table, tableColumns) := entry in
                 <[table := (range_of (tableColumns : gmap string bool)).*1]> mapping)
              mapping entries !! k
        = mapping !! k).
Proof.
  induction entries as [|[k0 s0] entries IH]; intros Hnd mapping k.
  - split; [intros s H; apply elem_of_nil in H; destruct H|reflexivity].
  - cbn [fmap list_fmap fst] in Hnd. apply NoDup_cons in Hnd as [Hfresh Hnd].
    cbn [foldl]. split.
    + intros s H. apply elem_of_cons in H as [[= -> ->]|H].
      * rewrite (proj2 (IH Hnd _ _) Hfresh). apply lookup_insert_eq.
      * apply (IH Hnd). exact H.
    + intros H. cbn [fmap list_fmap fst] in H.
      apply not_elem_of_cons in H as [Hne H].
      rewrite (proj2 (IH Hnd _ _) H). apply lookup_insert_ne. congruence.
Qed.

Lemma storeColumns_lookup (columns : gmap string (gmap string bool))
    (mapping : gmap string (list string)) (k : string) :
  storeColumns columns mapping !! k
  = match columns !! k with
    | Some s => Some (range_of s).*1
    | None => mapping !! k
    end.
Proof.
  unfold storeColumns.
  assert (Hnd : NoDup (range_of columns).*1).
  { rewrite range_of_perm. apply NoDup_fst_map_to_list. }
  destruct (columns !! k) as [s|] eqn:Hk.
  - apply (foldl_store_lookup _ Hnd).
    rewrite range_of_perm. apply elem_of_map_to_list. exact Hk.
  - apply (foldl_store_lookup _ Hnd).
    rewrite range_of_perm. intros H.
    apply list_elem_of_fmap in H as [[k' s] [-> H]].
    apply elem_of_map_to_list in H. cbn in Hk. congruence.
Qed.

(** X21: after [revertAlias] on a join whose aliases are pairwise
    distinct, the slice of a table name for which a column was written
    under one of its aliases holds, each once, exactly the columns written
    under the aliases of that name, whatever the order of the iteration
    over the maps of lines 100-105. *)
Theorem revertAlias_table_columns (q : SelectQuery)
    (mapping : gmap string (list string)) (name : string) :
  FromClause_Type (GetFromClause q) = FromClauseInnerJoin ->
  NoDup (table_alias <$> Names (GetFromClause q)) ->
  (exists (table : TableName) (column : string),
      table ∈ Names (GetFromClause q)
      /\ Name (TableName_Name table) = name
      /\ column ∈ slice_at mapping (table_alias table)) ->
  NoDup (slice_at (revertAlias q mapping) name)
  /\ forall column : string,
       column ∈ slice_at (revertAlias q mapping) name
       <-> exists table : TableName,
             table ∈ Names (GetFromClause q)
             /\ Name (TableName_Name table) = name
             /\ column ∈ slice_at mapping (table_alias table).
Proof.
  intros Hjoin Hnd Hsome. unfold revertAlias.
  rewrite bool_decide_eq_false_2 by (intros K; apply K; exact Hjoin).
  pose proof (fun c => gatherColumns_columns (Names (GetFromClause q)) ∅ mapping
                         name c Hnd) as Hcols.
  unfold gatherColumns.
  destruct (foldl _ (∅, mapping) (Names (GetFromClause q)))
    as [columns mapping'] eqn:E.
  cbn [fst] in Hcols.
  assert (Hcols' : forall c : string,
             is_Some (default ∅ (columns !! name) !! c)
             <-> exists table : TableName,
                   table ∈ Names (GetFromClause q)
                   /\ Name (TableName_Name table) = name
                   /\ c ∈ slice_at mapping (table_alias table)).
  { intros c. rewrite Hcols. rewrite lookup_empty. cbn [default].
    rewrite lookup_empty. split; [intros [[x Hx]|H]; [discriminate Hx|exact H]|].
    intros H. right. exact H. }
  destruct Hsome as (table & column & Hsome).
  assert (Hc : is_Some (default ∅ (columns !! name) !! column))
    by (apply Hcols'; eauto).
  clear Hcols.
  destruct (columns !! name) as [s|] eqn:Hs; cycle 1.
  { cbn in Hc. rewrite lookup_empty in Hc. destruct Hc as [x Hx].
    discriminate Hx. }
  cbn [from_option id] in Hcols'.
  unfold slice_at at 1 2.
  rewrite storeColumns_lookup, Hs. cbn [from_option id]. split.
  - rewrite range_of_perm. apply NoDup_fst_map_to_list.
  - intros c. rewrite <- Hcols'. rewrite range_of_perm. split.
    + intros H. apply list_elem_of_fmap in H as [[k v] [-> H]].
      apply elem_of_map_to_list in H. eauto.
    + intros [v Hv]. apply list_elem_of_fmap. exists (c, v).
      split; [reflexivity|]. apply elem_of_map_to_list. exact Hv.
Qed.

(** X22: on a join, [revertAlias] removes every alias that is not also the
    name of a table of the from clause, and leaves alone every key that
    is neither an alias nor such a name. *)
Theorem revertAlias_other_keys (q : SelectQuery)
    (mapping : gmap string (list string)) (k : string) :
  FromClause_Type (GetFromClause q) = FromClauseInnerJoin ->
  (forall table : TableName,
      table ∈ Names (GetFromClause q) -> Name (TableName_Name table) <> k) ->
  (k ∈ table_alias <$> Names (GetFromClause q) ->
   revertAlias q mapping !! k = None)
  /\ (k ∉ table_alias <$> Names (GetFromClause q) ->
      revertAlias q mapping !! k = mapping !! k).
Proof.
  intros Hjoin Hname. unfold revertAlias.
  rewrite bool_decide_eq_false_2 by (intros K; apply K; exact Hjoin).
  pose proof (gatherColumns_mapping (Names (GetFromClause q)) ∅ mapping k) as Hm.
  pose proof (gatherColumns_names (Names (GetFromClause q)) ∅ mapping k) as Hn.
  unfold gatherColumns.
  destruct (foldl _ (∅, mapping) (Names (GetFromClause q)))
    as [columns mapping'] eqn:E.
  cbn [fst snd] in Hm, Hn.
  assert (Hk : columns !! k = None).
  { destruct (columns !! k) as [s|] eqn:Hs; [|reflexivity].
    destruct Hn as [[x Hx]|(t & Ht & Hk)]; [eauto| |].
    - rewrite lookup_empty in Hx. discriminate Hx.
    - destruct (Hname t Ht Hk). }
  rewrite storeColumns_lookup, Hk, Hm. split; intros H.
  - rewrite decide_True by exact H. reflexivity.
  - rewrite decide_False by exact H. reflexivity.
Qed.

End Aliases.

(** Witness: [a AS x INNER JOIN a AS y INNER JOIN b] with [host] written
    under [x] and [host], [region] under [y]. *)
Lemma revertAlias_table_columns_witness :
  FromClause_Type (GetFromClause Queries.joined) = FromClauseInnerJoin
  /\ NoDup (table_alias <$> Names (GetFromClause Queries.joined))
  /\ NoDup (slice_at
              (@revertAlias MapRange_canonical Queries.joined
                 {["x" := ["host"]; "y" := ["host"; "region"]]})
              "a")
  /\ forall column : string,
       column ∈ slice_at
                  (@revertAlias MapRange_canonical Queries.joined
                     {["x" := ["host"]; "y" := ["host"; "region"]]})
                  "a"
       <-> exists table : TableName,
             table ∈ Names (GetFromClause Queries.joined)
             /\ Name (TableName_Name table) = "a"%string
             /\ column ∈ slice_at {["x" := ["host"]; "y" := ["host"; "region"]]}
                                  (table_alias table).
Proof.
  assert (H1 : FromClause_Type (GetFromClause Queries.joined)
               = FromClauseInnerJoin) by reflexivity.
  assert (H2 : NoDup (table_alias <$> Names (GetFromClause Queries.joined))).
  { apply (bool_decide_unpack _). vm_compute. exact I. }
  assert (H3 : exists (table : TableName) (column : string),
             table ∈ Names (GetFromClause Queries.joined)
             /\ Name (TableName_Name table) = "a"%string
             /\ column ∈ slice_at {["x" := ["host"]; "y" := ["host"; "region"]]}
                                  (table_alias table)).
  { exists (mkTableName (SimpleName "a") "x"), "host"%string.
    split; [apply list_elem_of_here|]. split; [reflexivity|].
    apply list_elem_of_here. }
  split; [exact H1|]. split; [exact H2|].
  exact (@revertAlias_table_columns MapRange_canonical Queries.joined
           {["x" := ["host"]; "y" := ["host"; "region"]]} "a" H1 H2 H3).
Defined.

(** Witness: the alias [x] of the same join. *)
Lemma revertAlias_other_keys_witness :
  FromClause_Type (GetFromClause Queries.joined) = FromClauseInnerJoin
  /\ (forall table : TableName,
         table ∈ Names (GetFromClause Queries.joined) ->
         Name (TableName_Name table) <> "x"%string)
  /\ ("x"%string ∈ table_alias <$> Names (GetFromClause Queries.joined) ->
      @revertAlias MapRange_canonical Queries.joined {["x" := ["host"]]} !! "x"%string
      = None)
  /\ ("x"%string ∉ table_alias <$> Names (GetFromClause Queries.joined) ->
      @revertAlias MapRange_canonical Queries.joined {["x" := ["host"]]} !! "x"%string
      = ({["x" := ["host"]]} : gmap string (list string)) !! "x"%string).
Proof.
  assert (H1 : FromClause_Type (GetFromClause Queries.joined)
               = FromClauseInnerJoin) by reflexivity.
  assert (H2 : forall table : TableName,
             table ∈ Names (GetFromClause Queries.joined) ->
             Name (TableName_Name table) <> "x"%string).
  { intros table H. cbn in H.
    repeat (apply elem_of_cons in H as [->|H]; [discriminate|]).
    apply elem_of_nil in H. destruct H. }
  split; [exact H1|]. split; [exact H2|].
  exact (@revertAlias_other_keys MapRange_canonical Queries.joined
           {["x" := ["host"]]} "x" H1 H2).
Defined.

(** ** The entries of the returned mapping *)

Section Tables.

Context {order : MapRange}.

Lemma zip_seq_snoc (names : list TableName) (table : TableName) :
  zip (seq 0 (length (names ++ [table]))) (names ++ [table])
  = zip (seq 0 (length names)) names ++ [(length names, table)].
Proof.
  rewrite length_app. cbn [length]. rewrite Nat.add_1_r, seq_S.
  rewrite zip_with_app by (rewrite length_seq; reflexivity). reflexivity.
Qed.

Lemma attachTables_snoc (notPrefixedColumns : list string)
    (names : list TableName) (table : TableName)
    (mapping : gmap string (list string)) :
  attachTables notPrefixedColumns (names ++ [table]) mapping
  = attachTable notPrefixedColumns
      (attachTables notPrefixedColumns names mapping) (length names, table).
Proof.
  unfold attachTables. rewrite zip_seq_snoc, foldl_app. reflexivity.
Qed.

Lemma first_of_name_snoc (names : list TableName) (last : TableName)
    (i : nat) (table : TableName) :
  (i <= length names)%nat ->
  first_of_name (names ++ [last]) i table <-> first_of_name names i table.
Proof.
  intros Hi. unfold first_of_name. split; intros H j other Hj Hl.
  - apply (H j other Hj). rewrite lookup_app_l by lia. exact Hl.
  - apply (H j other Hj). rewrite lookup_app_l in Hl by lia. exact Hl.
Qed.

Lemma lookup_snoc_old (names : list TableName) (last table : TableName)
    (i : nat) :
  names !! i = Some table -> (names ++ [last]) !! i = Some table.
Proof.
  intros H. rewrite lookup_app_l by (eapply lookup_lt_Some; exact H). exact H.
Qed.

Lemma lookup_snoc_last (names : list TableName) (last : TableName) :
  (names ++ [last]) !! length names = Some last.
Proof. apply lookup_snoc_Some. right. split; reflexivity. Qed.

(** The loop of lines 138-158: the names added and the keys written. *)
Lemma attachTables_keys (notPrefixedColumns : list string)
    (mapping : gmap string (list string)) (names : list TableName) :
  (forall x : string,
      x ∈ (attachTables notPrefixedColumns names mapping).1.1
      <-> exists (j : nat) (table : TableName),
            names !! j = Some table
            /\ GetCompiledRegex (TableName_Name table) = false
            /\ Name (TableName_Name table) = x)
  /\ (forall i : nat,
         is_Some ((attachTables notPrefixedColumns names mapping).1.2 !! i)
         <-> exists table : TableName,
               names !! i = Some table
               /\ (GetCompiledRegex (TableName_Name table) = true
                   \/ first_of_name names i table)).
Proof.
  induction names as [|last names [IH1 IH2]] using rev_ind.
  - unfold attachTables. cbn [length seq zip zip_with foldl fst snd]. split.
    + intros x. split; [intros H; apply elem_of_empty in H; destruct H|].
      intros (j & t & Hj & _). discriminate Hj.
    + intros i. rewrite lookup_empty. split; [intros [x Hx]; discriminate Hx|].
      intros (t & Hi & _). discriminate Hi.
  - rewrite attachTables_snoc.
    destruct (attachTables notPrefixedColumns names mapping)
      as [[added returned] mapping'] eqn:E.
    cbn [fst snd] in IH1, IH2.
    assert (Hold : forall i : nat,
               i <> length names ->
               is_Some (returned !! i)
               <-> exists table : TableName,
                     (names ++ [last]) !! i = Some table
                     /\ (GetCompiledRegex (TableName_Name table) = true
                         \/ first_of_name (names ++ [last]) i table)).
    { intros i Hne. rewrite IH2. split.
      - intros (t & Hi & Hcase). exists t.
        split; [apply lookup_snoc_old; exact Hi|].
        destruct Hcase as [Hr|Hf]; [left; exact Hr|right].
        apply first_of_name_snoc; [|exact Hf].
        apply Nat.lt_le_incl. eapply lookup_lt_Some. exact Hi.
      - intros (t & Hi & Hcase).
        apply lookup_snoc_Some in Hi as [[Hlt Hi]|[-> _]]; [|contradiction].
        exists t. split; [exact Hi|].
        destruct Hcase as [Hr|Hf]; [left; exact Hr|right].
        apply first_of_name_snoc in Hf; [exact Hf|lia]. }
    assert (Hext : forall x : string,
               (exists (j : nat) (table : TableName),
                   names !! j = Some table
                   /\ GetCompiledRegex (TableName_Name table) = false
                   /\ Name (TableName_Name table) = x) ->
               exists (j : nat) (table : TableName),
                 (names ++ [last]) !! j = Some table
                 /\ GetCompiledRegex (TableName_Name table) = false
                 /\ Name (TableName_Name table) = x).
    { intros x (j & t & Hj & Hr & Hn). exists j, t.
      split; [apply lookup_snoc_old; exact Hj|auto]. }
    unfold attachTable.
    destruct (GetCompiledRegex (TableName_Name last)) eqn:Hre.
    + cbn [fst snd]. split.
      * intros x. rewrite IH1. split; [apply Hext|].
        intros (j & t & Hj & Hr & Hn).
        apply lookup_snoc_Some in Hj as [[Hlt Hj]|[-> ->]]; [eauto 6|congruence].
      * intros i. destruct (decide (i = length names)) as [->|Hne].
        -- rewrite lookup_insert_eq. split; [|eauto]. intros _. exists last.
           split; [apply lookup_snoc_last|left; exact Hre].
        -- rewrite lookup_insert_ne by congruence. apply Hold. exact Hne.
    + case_bool_decide as Hadded.
      * cbn [fst snd]. split.
        -- intros x. rewrite IH1. split; [apply Hext|].
           intros (j & t & Hj & Hr & Hn).
           apply lookup_snoc_Some in Hj as [[Hlt Hj]|[-> ->]]; [eauto 6|].
           subst x. apply IH1. exact Hadded.
        -- intros i. destruct (decide (i = length names)) as [->|Hne];
             [|apply Hold; exact Hne].
           split.
           ++ intros Hs. apply IH2 in Hs as (t & Hi & _).
              apply lookup_lt_Some in Hi. lia.
           ++ intros (t & Hi & Hcase).
              apply lookup_snoc_Some in Hi as [[Hlt _]|[_ <-]]; [lia|].
              destruct Hcase as [Hr|Hf]; [congruence|].
              apply IH1 in Hadded as (j & t1 & Hj & Hr & Hn). exfalso.
              apply (Hf j t1); [eapply lookup_lt_Some; exact Hj| |exact Hr|exact Hn].
              apply lookup_snoc_old. exact Hj.
      * cbn [fst snd]. split.
        -- intros x. rewrite elem_of_union, elem_of_singleton, IH1. split.
           ++ intros [->|H]; [|apply Hext; exact H].
              exists (length names), last.
              split; [apply lookup_snoc_last|auto].
           ++ intros (j & t & Hj & Hr & Hn).
              apply lookup_snoc_Some in Hj as [[Hlt Hj]|[-> ->]];
                [right; eauto 6|left; symmetry; exact Hn].
        -- intros i. destruct (decide (i = length names)) as [->|Hne].
           ++ rewrite lookup_insert_eq. split; [|eauto]. intros _. exists last.
              split; [apply lookup_snoc_last|]. right.
              intros j other Hj Hl Hr Hn. apply Hadded. apply IH1.
              exists j, other. rewrite lookup_app_l in Hl by lia. auto.
           ++ rewrite lookup_insert_ne by congruence. apply Hold. exact Hne.
Qed.

(** The recovery step of lines 166-176 writes to the entries that are
    there, and makes none. *)
Lemma reattach_keys (returnedMapping : gmap nat (list string))
    (prefix columnName : string) (i : nat) :
  is_Some (reattach returnedMapping prefix columnName !! i)
  <-> is_Some (returnedMapping !! i).
Proof. unfold reattach. rewrite lookup_fmap. apply fmap_is_Some. Qed.

Lemma reattachLeftovers_keys (mapping : gmap string (list string))
    (returnedMapping : gmap nat (list string)) (i : nat) :
  is_Some (reattachLeftovers returnedMapping mapping !! i)
  <-> is_Some (returnedMapping !! i).
Proof.
  unfold reattachLeftovers. generalize (range_of mapping). intros entries.
  revert returnedMapping.
  induction entries as [|[prefix columnNames] entries IH]; intros returnedMapping;
    [reflexivity|].
  cbn [foldl]. rewrite IH. clear IH. revert returnedMapping.
  induction columnNames as [|columnName columnNames IH]; intros returnedMapping;
    [reflexivity|].
  cbn [foldl]. rewrite IH. apply reattach_keys.
Qed.

Lemma GetReferencedColumns_lookup (fuel : nat) (h : heap) (q : SelectQuery)
    (returned : gmap nat (list string)) (i : nat) :
  GetReferencedColumns fuel h q = Done returned ->
  is_Some (returned !! i)
  <-> exists table : TableName,
        Names (GetFromClause q) !! i = Some table
        /\ (GetCompiledRegex (TableName_Name table) = true
            \/ first_of_name (Names (GetFromClause q)) i table).
Proof.
  unfold GetReferencedColumns.
  destruct (collectColumns fuel h q) as [[notPrefixed mapping]| |];
    cbn [exec_bind]; [|discriminate..].
  pose proof (proj2 (attachTables_keys (uniq notPrefixed) (revertAlias q mapping)
                       (Names (GetFromClause q))) i) as K.
  destruct (attachTables _ _ _) as [[added returnedMapping] leftover].
  cbn [fst snd] in K.
  case_bool_decide; intros [= <-]; [exact K|].
  rewrite reattachLeftovers_keys. exact K.
Qed.

(** X23: the mapping [GetReferencedColumns] returns has one entry for
    every regex table of the from clause and one for the first entry of
    every other table name, and no further entry: a table named twice is
    reported once, under its first [Value]. *)
Theorem GetReferencedColumns_keys (fuel : nat) (h : heap) (q : SelectQuery)
    (returned : gmap nat (list string)) :
  GetReferencedColumns fuel h q = Done returned ->
  forall i : nat,
    is_Some (returned !! i)
    <-> exists table : TableName,
          Names (GetFromClause q) !! i = Some table
          /\ (GetCompiledRegex (TableName_Name table) = true
              \/ first_of_name (Names (GetFromClause q)) i table).
Proof.
  intros H i. exact (GetReferencedColumns_lookup fuel h q returned i H).
Qed.

(** X24: when [WillReturnSingleSeries] answers yes, the mapping of
    [GetReferencedColumns] has exactly one entry, the one of the only
    table of the from clause. *)
Theorem WillReturnSingleSeries_one_entry (fuel : nat) (h : heap)
    (q : SelectQuery) (returned : gmap nat (list string)) :
  WillReturnSingleSeries q = Done true ->
  GetReferencedColumns fuel h q = Done returned ->
  forall i : nat, is_Some (returned !! i) <-> i = 0%nat.
Proof.
  intros Hsingle H i.
  rewrite (GetReferencedColumns_lookup fuel h q returned i H).
  unfold WillReturnSingleSeries in Hsingle.
  case_bool_decide; [discriminate Hsingle|].
  destruct (Nat.ltb_spec 1 (length (Names (GetFromClause q))));
    [discriminate Hsingle|].
  destruct (Names (GetFromClause q)) as [|first [|second rest]];
    [discriminate Hsingle| |cbn in *; lia].
  split.
  - intros (t & Hi & _). apply lookup_lt_Some in Hi. cbn in Hi. lia.
  - intros ->. exists first. split; [reflexivity|]. right.
    intros j other Hj. lia.
Qed.

End Tables.

(** Witness: [SELECT *, value FROM t, /u.*/, t]. *)
Lemma GetReferencedColumns_keys_witness :
  @GetReferencedColumns MapRange_canonical 0 [] Queries.merged
  = Done {[0%nat := ["*"]; 1%nat := ["*"; "value"]]}
  /\ forall i : nat,
       is_Some (({[0%nat := ["*"]; 1%nat := ["*"; "value"]]}
                 : gmap nat (list string)) !! i)
       <-> exists table : TableName,
             Names (GetFromClause Queries.merged) !! i = Some table
             /\ (GetCompiledRegex (TableName_Name table) = true
                 \/ first_of_name (Names (GetFromClause Queries.merged)) i table).
Proof.
  assert (H : @GetReferencedColumns MapRange_canonical 0 [] Queries.merged
              = Done {[0%nat := ["*"]; 1%nat := ["*"; "value"]]})
    by (vm_compute; reflexivity).
  split; [exact H|].
  exact (@GetReferencedColumns_keys MapRange_canonical 0 [] Queries.merged _ H).
Defined.

(** Witness: [SELECT value FROM t]. *)
Lemma WillReturnSingleSeries_one_entry_witness :
  WillReturnSingleSeries Queries.single = Done true
  /\ @GetReferencedColumns MapRange_canonical 0 [] Queries.single
     = Done {[0%nat := ["value"]]}
  /\ forall i : nat,
       is_Some (({[0%nat := ["value"]]} : gmap nat (list string)) !! i)
       <-> i = 0%nat.
Proof.
  assert (H : @GetReferencedColumns MapRange_canonical 0 [] Queries.single
              = Done {[0%nat := ["value"]]})
    by (vm_compute; reflexivity).
  split; [reflexivity|]. split; [exact H|].
  exact (@WillReturnSingleSeries_one_entry MapRange_canonical 0 []
           Queries.single _ eq_refl H).
Defined.

(** ** Queries without qualified columns *)

Section Unqualified.

Context {order : MapRange}.

Lemma gatherColumns_empty (names : list TableName) :
  gatherColumns names ∅ = (∅, ∅).
Proof.
  unfold gatherColumns.
  generalize (∅ : gmap string (gmap string bool)) at 1 2. intros columns.
  induction names as [|table names IH]; [reflexivity|].
  cbn [foldl]. unfold slice_at. rewrite lookup_empty. cbn [from_option foldl].
  rewrite delete_empty. exact IH.
Qed.

Lemma revertAlias_empty (q : SelectQuery) : revertAlias q ∅ = ∅.
Proof.
  unfold revertAlias. case_bool_decide; [reflexivity|].
  rewrite gatherColumns_empty. apply storeColumns_empty.
Qed.

Lemma starts_with_star_take (columns : list string) :
  starts_with_star columns = true -> take 1 columns = ["*"%string].
Proof.
  unfold starts_with_star. destruct columns as [|first rest];
    [rewrite andb_false_r; discriminate|].
  intros H. apply andb_true_iff in H as [_ H]. apply String.eqb_eq in H.
  subst first. reflexivity.
Qed.

(** The loop of lines 138-158 when no column is qualified. *)
Lemma attachTables_unqualified (columns : list string) (names : list TableName) :
  (attachTables (uniq columns) names ∅).2 = ∅
  /\ forall (i : nat) (l : list string),
       (attachTables (uniq columns) names ∅).1.2 !! i = Some l ->
       exists table : TableName,
         names !! i = Some table
         /\ l = if GetCompiledRegex (TableName_Name table) then uniq columns
                else if starts_with_star (uniq columns) then ["*"%string]
                else uniq columns.
Proof.
  induction names as [|last names [IH1 IH2]] using rev_ind.
  - unfold attachTables. cbn [length seq zip zip_with foldl fst snd].
    split; [reflexivity|]. intros i l H. rewrite lookup_empty in H.
    discriminate H.
  - rewrite attachTables_snoc.
    destruct (attachTables (uniq columns) names ∅)
      as [[added returned] mapping'] eqn:E.
    cbn [fst snd] in IH1, IH2. subst mapping'.
    assert (Hold : forall (i : nat) (l : list string),
               returned !! i = Some l ->
               exists table : TableName,
                 (names ++ [last]) !! i = Some table
                 /\ l = if GetCompiledRegex (TableName_Name table)
                        then uniq columns
                        else if starts_with_star (uniq columns)
                        then ["*"%string] else uniq columns).
    { intros i l H. destruct (IH2 i l H) as (t & Hi & Hl). exists t.
      split; [apply lookup_snoc_old; exact Hi|exact Hl]. }
    unfold attachTable.
    destruct (GetCompiledRegex (TableName_Name last)) eqn:Hre.
    + cbn [fst snd]. split; [reflexivity|]. intros i l.
      destruct (decide (i = length names)) as [->|Hne].
      * rewrite lookup_insert_eq. intros [= <-]. exists last.
        split; [apply lookup_snoc_last|]. rewrite Hre. reflexivity.
      * rewrite lookup_insert_ne by congruence. apply Hold.
    + case_bool_decide as Hadded; cbn [fst snd];
        [split; [reflexivity|exact Hold]|].
      split; [apply delete_empty|]. intros i l.
      destruct (decide (i = length names)) as [->|Hne].
      * rewrite lookup_insert_eq. intros [= <-]. exists last.
        split; [apply lookup_snoc_last|]. rewrite Hre.
        unfold slice_at. rewrite lookup_empty. cbn [from_option app].
        assert (Hidem : uniq (uniq columns) = uniq columns).
        { apply uniq_same_elements. intros x. apply uniq_elem_of_iff. }
        rewrite Hidem.
        destruct (starts_with_star (uniq columns)) eqn:Hstar; [|reflexivity].
        apply starts_with_star_take. exact Hstar.
      * rewrite lookup_insert_ne by congruence. apply Hold.
Qed.

(** X25: when the query has no qualified column, every entry of the
    returned mapping is made of the unprefixed columns, sorted and without
    repetition: all of them for a regex table; for any other table all of
    them, or the wildcard alone when it is one of several. *)
Theorem GetReferencedColumns_unqualified (fuel : nat) (h : heap)
    (q : SelectQuery) (notPrefixedColumns : list string) :
  collectColumns fuel h q = Done (notPrefixedColumns, ∅) ->
  exists returned : gmap nat (list string),
    GetReferencedColumns fuel h q = Done returned
    /\ forall (i : nat) (l : list string),
         returned !! i = Some l ->
         exists table : TableName,
           Names (GetFromClause q) !! i = Some table
           /\ l = if GetCompiledRegex (TableName_Name table)
                  then uniq notPrefixedColumns
                  else if starts_with_star (uniq notPrefixedColumns)
                  then ["*"%string] else uniq notPrefixedColumns.
Proof.
  intros Hcollect. unfold GetReferencedColumns. rewrite Hcollect.
  cbn [exec_bind]. rewrite revertAlias_empty.
  destruct (attachTables_unqualified notPrefixedColumns (Names (GetFromClause q)))
    as [Hempty Hvalues].
  destruct (attachTables _ _ _) as [[added returned] leftover].
  cbn [fst snd] in Hempty, Hvalues. subst leftover.
  rewrite bool_decide_eq_true_2 by apply map_size_empty.
  exists returned. split; [reflexivity|exact Hvalues].
Qed.

(** X26: for a single-point query neither the where condition nor the
    group-by list is read (lines 120-129): the result is the one of the
    query without them, whatever the heap and the fuel. *)
Theorem GetReferencedColumns_single_point (fuel fuel' : nat) (h h' : heap)
    (q : SelectQuery) (condition : option ptr) (groupBy : list Value) :
  IsSinglePointQuery q = true ->
  GetReferencedColumns fuel h q
  = GetReferencedColumns fuel' h'
      (mkSelectQuery (ColumnNames q) (GetFromClause q) condition groupBy true).
Proof.
  intros Hsp. unfold GetReferencedColumns, collectColumns, revertAlias.
  rewrite Hsp. reflexivity.
Qed.

(** X27: a projected value named [time] or [sequence_number] is skipped
    whatever its kind and its operands (lines 115-117): the result is the
    one of the query without it. *)
Theorem GetReferencedColumns_skips_time (fuel : nat) (h : heap)
    (q : SelectQuery) (before after : list Value) (value : Value) :
  ColumnNames q = before ++ value :: after ->
  Name value = "time"%string \/ Name value = "sequence_number"%string ->
  GetReferencedColumns fuel h q
  = GetReferencedColumns fuel h
      (mkSelectQuery (before ++ after) (GetFromClause q) (GetWhereCondition q)
         (groupByClause_Elems q) (IsSinglePointQuery q)).
Proof.
  intros Hcols Hname.
  unfold GetReferencedColumns, collectColumns, revertAlias.
  cbn [ColumnNames GetFromClause GetWhereCondition groupByClause_Elems
       IsSinglePointQuery].
  rewrite Hcols, !foldl_app. cbn [foldl].
  assert (Hskip : String.eqb (Name value) "time"
                  || String.eqb (Name value) "sequence_number" = true).
  { destruct Hname as [-> | ->]; reflexivity. }
  rewrite Hskip. reflexivity.
Qed.

End Unqualified.

(** Witness: [SELECT *, value FROM t, /u.*/, t]. *)
Lemma GetReferencedColumns_unqualified_witness :
  collectColumns 0 [] Queries.merged = Done (["*"; "value"], ∅)
  /\ exists returned : gmap nat (list string),
       @GetReferencedColumns MapRange_canonical 0 [] Queries.merged = Done returned
       /\ forall (i : nat) (l : list string),
            returned !! i = Some l ->
            exists table : TableName,
              Names (GetFromClause Queries.merged) !! i = Some table
              /\ l = if GetCompiledRegex (TableName_Name table)
                     then @uniq MapRange_canonical ["*"; "value"]
                     else if starts_with_star (@uniq MapRange_canonical ["*"; "value"])
                     then ["*"%string] else @uniq MapRange_canonical ["*"; "value"].
Proof.
  split; [reflexivity|].
  exact (@GetReferencedColumns_unqualified MapRange_canonical 0 []
           Queries.merged ["*"; "value"] eq_refl).
Defined.

(** Witness: the single-point form of [SELECT value FROM t], with a
    dangling condition. *)
Lemma GetReferencedColumns_single_point_witness :
  IsSinglePointQuery
    (mkSelectQuery [SimpleName "value"]
       (mkFromClause FromClauseArray [mkTableName (SimpleName "t") ""])
       (Some 7%nat) [SimpleName "a.b"] true) = true
  /\ @GetReferencedColumns MapRange_canonical 0 []
       (mkSelectQuery [SimpleName "value"]
          (mkFromClause FromClauseArray [mkTableName (SimpleName "t") ""])
          (Some 7%nat) [SimpleName "a.b"] true)
     = @GetReferencedColumns MapRange_canonical 1 Sample.heap_join
         (mkSelectQuery [SimpleName "value"]
            (mkFromClause FromClauseArray [mkTableName (SimpleName "t") ""])
            None [] true).
Proof.
  split; [reflexivity|].
  apply (@GetReferencedColumns_single_point MapRange_canonical 0 1 []
           Sample.heap_join
           (mkSelectQuery [SimpleName "value"]
              (mkFromClause FromClauseArray [mkTableName (SimpleName "t") ""])
              (Some 7%nat) [SimpleName "a.b"] true)
           None []).
  reflexivity.
Defined.

(** Witness: [SELECT time, value FROM t]. *)
Lemma GetReferencedColumns_skips_time_witness :
  ColumnNames
    (mkSelectQuery [SimpleName "time"; SimpleName "value"]
       (mkFromClause FromClauseArray [mkTableName (SimpleName "t") ""])
       None [] false)
  = [] ++ SimpleName "time" :: [SimpleName "value"]
  /\ (Name (SimpleName "time") = "time"%string
      \/ Name (SimpleName "time") = "sequence_number"%string)
  /\ @GetReferencedColumns MapRange_canonical 0 []
       (mkSelectQuery [SimpleName "time"; SimpleName "value"]
          (mkFromClause FromClauseArray [mkTableName (SimpleName "t") ""])
          None [] false)
     = @GetReferencedColumns MapRange_canonical 0 [] Queries.single.
Proof.
  split; [reflexivity|]. split; [left; reflexivity|].
  apply (@GetReferencedColumns_skips_time MapRange_canonical 0 []
           (mkSelectQuery [SimpleName "time"; SimpleName "value"]
              (mkFromClause FromClauseArray [mkTableName (SimpleName "t") ""])
              None [] false)
           [] [SimpleName "value"] (SimpleName "time"));
    [reflexivity|left; reflexivity].
Defined.

(** ** Series and aliases *)

(** X28: [WillReturnSingleSeries] indexes the first name of the from
    clause without a check (line 43): it panics exactly on a from clause
    of kind array without names, and answers yes exactly on one of kind
    array with a single name that is no regex. *)
Theorem WillReturnSingleSeries_cases (q : SelectQuery) :
  (WillReturnSingleSeries q = Panic
   <-> FromClause_Type (GetFromClause q) = FromClauseArray
       /\ Names (GetFromClause q) = [])
  /\ (WillReturnSingleSeries q = Done true
      <-> FromClause_Type (GetFromClause q) = FromClauseArray
          /\ exists table : TableName,
               Names (GetFromClause q) = [table]
               /\ GetCompiledRegex (TableName_Name table) = false).
Proof.
  unfold WillReturnSingleSeries.
  destruct (FromClause_Type (GetFromClause q)) eqn:Hty.
  - rewrite bool_decide_eq_false_2 by (intros K; apply K; reflexivity).
    destruct (Names (GetFromClause q)) as [|first [|second rest]]; cbn.
    + split; [tauto|]. split; [discriminate|].
      intros [_ (t & Ht & _)]. discriminate Ht.
    + destruct (GetCompiledRegex (TableName_Name first)) eqn:Hre.
      * split; [split; [discriminate|intros [_ K]; discriminate K]|].
        split; [discriminate|]. intros [_ (t & [= <-] & K)]. congruence.
      * split; [split; [discriminate|intros [_ K]; discriminate K]|].
        split; [|reflexivity]. intros _. split; [reflexivity|]. eauto.
    + split; [split; [discriminate|intros [_ K]; discriminate K]|].
      split; [discriminate|]. intros [_ (t & Ht & _)]. discriminate Ht.
  - rewrite bool_decide_eq_true_2 by discriminate.
    split; split; try discriminate; intros [K _]; discriminate K.
Qed.

Lemma GetTableAliases_loop (name : string) (names : list TableName) :
  forall (aliases : list string) (a : string),
    a ∈ foldl (fun (aliases : list string) fromName =>
                 if negb (String.eqb (Name (TableName_Name fromName)) name)
                 then aliases
                 else if String.eqb (TableName_Alias fromName) ""
                 then aliases ++ [name]
                 else aliases ++ [TableName_Alias fromName])
              aliases names
    <-> a ∈ aliases
        \/ exists table : TableName,
             table ∈ names /\ Name (TableName_Name table) = name
             /\ a = table_alias table.
Proof.
  induction names as [|table names IH]; intros aliases a.
  - cbn [foldl]. split; [auto|]. intros [H|(t & Ht & _)]; [exact H|].
    apply elem_of_nil in Ht. destruct Ht.
  - cbn [foldl]. rewrite IH. clear IH. unfold table_alias.
    destruct (String.eqb_spec (Name (TableName_Name table)) name) as [Hn|Hn];
      cbn [negb].
    + destruct (String.eqb_spec (TableName_Alias table) "") as [Ha|Ha];
        cbn [negb]; rewrite elem_of_app, list_elem_of_singleton; split.
      * intros [[H| ->]|(t & Ht & Hnt & Hat)]; [left; exact H| |].
        -- right. exists table. rewrite Ha. cbn.
           split; [apply elem_of_cons; left; reflexivity|]. split; [exact Hn|].
           symmetry; exact Hn.
        -- right. exists t. split; [apply elem_of_cons; right; exact Ht|auto].
      * intros [H|(t & Ht & Hnt & Hat)]; [left; left; exact H|].
        apply elem_of_cons in Ht as [->|Ht]; [|right; eauto].
        left. right. rewrite Ha in Hat. cbn in Hat. congruence.
      * intros [[H| ->]|(t & Ht & Hnt & Hat)]; [left; exact H| |].
        -- right. exists table.
           split; [apply elem_of_cons; left; reflexivity|]. split; [exact Hn|].
           apply String.eqb_neq in Ha. rewrite Ha. reflexivity.
        -- right. exists t. split; [apply elem_of_cons; right; exact Ht|auto].
      * intros [H|(t & Ht & Hnt & Hat)]; [left; left; exact H|].
        apply elem_of_cons in Ht as [->|Ht]; [|right; eauto].
        left. right. apply String.eqb_neq in Ha. rewrite Ha in Hat. exact Hat.
    + split.
      * intros [H|(t & Ht & Hnt & Hat)]; [left; exact H|].
        right. exists t. split; [apply elem_of_cons; right; exact Ht|auto].
      * intros [H|(t & Ht & Hnt & Hat)]; [left; exact H|].
        apply elem_of_cons in Ht as [->|Ht]; [contradiction|right; eauto].
Qed.

(** X29: unless the from clause is a single regex, the aliases
    [GetTableAliases] returns for [name] are those under which
    [revertAlias] reads the columns of the entries named [name]: the
    alias of the entry, or [name] when it has none. *)
Theorem GetTableAliases_members (q : SelectQuery) (name a : string) :
  (forall table : TableName,
      Names (GetFromClause q) = [table] ->
      Type_ (TableName_Name table) <> ValueRegex) ->
  a ∈ GetTableAliases q name
  <-> exists table : TableName,
        table ∈ Names (GetFromClause q)
        /\ Name (TableName_Name table) = name
        /\ a = table_alias table.
Proof.
  intros Hregex. unfold GetTableAliases.
  assert (Hguard :
    bool_decide (length (Names (GetFromClause q)) = 1%nat)
    && match Names (GetFromClause q) with
       | first :: _ => bool_decide (Type_ (TableName_Name first) = ValueRegex)
       | [] => false
       end = false).
  { destruct (Names (GetFromClause q)) as [|first [|second rest]];
      [reflexivity| |reflexivity].
    cbn. apply bool_decide_eq_false_2. apply Hregex. reflexivity. }
  rewrite Hguard. rewrite GetTableAliases_loop. rewrite elem_of_nil. tauto.
Qed.

(** Witness: the aliases of [a] in [a AS x INNER JOIN a AS y INNER JOIN b]. *)
Lemma GetTableAliases_members_witness :
  (forall table : TableName,
      Names (GetFromClause Queries.joined) = [table] ->
      Type_ (TableName_Name table) <> ValueRegex)
  /\ GetTableAliases Queries.joined "a" = ["x"; "y"]%string
  /\ ("y"%string ∈ GetTableAliases Queries.joined "a"
      <-> exists table : TableName,
            table ∈ Names (GetFromClause Queries.joined)
            /\ Name (TableName_Name table) = "a"%string
            /\ "y"%string = table_alias table).
Proof.
  assert (H : forall table : TableName,
             Names (GetFromClause Queries.joined) = [table] ->
             Type_ (TableName_Name table) <> ValueRegex)
    by (intros table K; discriminate K).
  split; [exact H|]. split; [reflexivity|].
  exact (GetTableAliases_members Queries.joined "a" "y" H).
Defined.
